(** * The reload orchestrator of the NGINX data plane

    A shallow embedding of [fullReconfiguration], [configFromTemplate] and
    [updateConfiguration] (package [dataplane]) together with the retry loop
    they drive.  The orchestrator is effectful code: it talks to a metric
    collector, an event channel, the certificate store, the file system and
    the proxy.  Every such interaction is a [Call]; a program is a finite tree
    of calls ([Prog]); an environment answers the calls from the history of
    the interaction, and [run] executes a program against a [World] that
    keeps the orchestrator's own mutable state, the files the orchestrator
    writes itself and the trace of observable calls.

    Log lines ([klog]) are not part of the model, except for the nil
    dereference that evaluating the arguments of the first log line of
    [fullReconfiguration] causes. *)

From Stdlib Require Import ZArith QArith Qpower String List Lia.
From stdpp Require Import base option strings gmap pretty.
Import ListNotations.

Local Open Scope string_scope.
Local Open Scope list_scope.
Local Open Scope Z_scope.

(** ** Data model *)

(** A Go [error] is kept as its message; [nil] is [None]. *)
Definition error : Type := string.

(** Go's [int] and [int64], kept as [Z] with the wrap-around written out. *)
Definition wrap_int (z : Z) : Z := (z + 2 ^ 63) mod 2 ^ 64 - 2 ^ 63.

Definition in_int_range (z : Z) : Prop := - 2 ^ 63 <= z < 2 ^ 63.

Module ingress.
(** [ingress.SSLCert]: the logical name, the certificate bytes and the
    content identity of the PEM bytes. *)
Record SSLCert : Type := {
  Name : string;
  PemCertKey : string;
  PemSHA : string
}.

Section Types.
Context {Backend Server L4Service : Type}.

(** [ingress.Configuration]: the routing relevant part of a snapshot. *)
Record Configuration : Type := {
  Backends : list Backend;
  Servers : list Server;
  TCPEndpoints : list L4Service;
  UDPEndpoints : list L4Service;
  ConfigurationChecksum : string
}.

(** [&ingress.Configuration{}] *)
Definition empty : Configuration :=
  {| Backends := []; Servers := []; TCPEndpoints := []; UDPEndpoints := [];
     ConfigurationChecksum := "" |}.

Definition set_ConfigurationChecksum (s : string) (c : Configuration) : Configuration :=
  {| Backends := Backends c; Servers := Servers c;
     TCPEndpoints := TCPEndpoints c; UDPEndpoints := UDPEndpoints c;
     ConfigurationChecksum := s |}.
End Types.
Arguments Configuration : clear implicits.
End ingress.

Module config.
(** [config.Configuration]: the fields of the settings object that the
    orchestrator reads or assigns. *)
Record Configuration : Type := {
  Checksum : string;
  SSLDHParam : string;
  Resolver : list string;
  DisableIpv6DNS : bool
}.

Section Types.
Context {Backend Server L4Service : Type}.

(** [config.TemplateConfig]: one desired-configuration snapshot.
    [DefaultSSLCertificate] is a pointer and [DHParamContent] a slice,
    both may be nil. *)
Record TemplateConfig : Type := {
  DefaultSSLCertificate : option ingress.SSLCert;
  BacklogSize : Z;
  Backends : list Backend;
  Servers : list Server;
  TCPBackends : list L4Service;
  UDPBackends : list L4Service;
  Cfg : Configuration;
  GeneratedTime : Z;
  DHParamFile : string;
  DHParamContent : option string
}.
End Types.
Arguments TemplateConfig : clear implicits.
End config.

(** [newEventMessage(eventType, reason, message)] *)
Record EventMessage : Type := newEventMessage {
  eventType : string;
  reason : string;
  message : string
}.

Definition EventTypeNormal : string := "Normal".
Definition EventTypeWarning : string := "Warning".

(** [ssl.FakeCertificateName], the placeholder for an unnamed certificate. *)
Definition FakeCertificateName : string := "default-fake-certificate".

(** [errors.New("timed out waiting for the condition")] of package [wait]. *)
Definition ErrWaitTimeout : error := "timed out waiting for the condition".

(** The line feed of the format strings. *)
Definition newline : string := String (Ascii.ascii_of_nat 10) "".

(** [file.ReadWriteByUser], the owner-only permission of every file written. *)
Inductive FileMode : Type := ReadWriteByUser.

(** The orchestrator's immutable fields: [n.resolver] and
    [n.cfg.DynamicConfigurationRetries]. *)
Record NGINXConfigurer : Type := {
  resolver : list string;
  DynamicConfigurationRetries : Z
}.

(** How a call of [fullReconfiguration] ends: it returns, or it panics on a
    nil pointer dereference (the deferred unlock has run by then). *)
Inductive Outcome : Type := Returned | Panicked.

Section Dataplane.
Context {Backend Server L4Service : Type}.

Abbreviation Configuration := (ingress.Configuration Backend Server L4Service).
Abbreviation TemplateConfig := (config.TemplateConfig Backend Server L4Service).

(** Pure helpers of [utilingress], [hashstructure] and [ingress] that are
    not part of the orchestrator; they are taken as they come. *)
Context (IsDynamicConfigurationEnough : Configuration -> Configuration -> bool)
        (Hash : Configuration -> Z)
        (Equal : Configuration -> Configuration -> bool)
        (GetRemovedIngresses GetRemovedHosts GetRemovedCertificateSerialNumbers :
           Configuration -> Configuration -> list string)
        (cfgPath : string).

(** ** Calls to collaborators *)

Inductive Call : Type :=
(* n.configureLock *)
| Lock
| Unlock
(* n.templateConfig, the last applied snapshot *)
| LoadTemplateConfig
| StoreTemplateConfig (cfg : TemplateConfig)
(* n.metricCollector *)
| SetSSLExpireTime (servers : list Server)
| SetSSLInfo (servers : list Server)
| IncReloadErrorCount
| IncReloadCount
| ConfigSuccess (hash : Z) (success : bool)
| RemoveMetrics (ri re rc : list string)
(* package ssl *)
| StoreSSLCertOnDisk (name : string) (cert : ingress.SSLCert)
| AddOrUpdateDHParam (file : string) (content : string)
(* n.GRPCClient.EventCh <- *)
| SendEvent (m : EventMessage)
(* time.Sleep of a duration in seconds, drawn from [d, d + jitter * d] *)
| Sleep (d : Q) (jitter : Q)
(* utilingress.ConfigureDynamically *)
| ConfigureDynamically (newcfg oldcfg : Configuration)
(* collaborators of updateConfiguration *)
| createOpentracingCfg (c : config.Configuration)
| SysctlSomaxconn
| IsIPv6Enabled
| TemplateWrite (cfg : TemplateConfig)
| testTemplate (content : string)
| KlogV2Enabled
| ReadFile (path : string)
| CreateTemp (dir pattern : string)
| WriteFile (path content : string) (perm : FileMode)
| DiffCommand (old new : string)
| Remove (path : string)
| CloseFile (path : string)
(* n.command.ExecCommand("-s", "reload").CombinedOutput() *)
| ExecReload.

(** What each call gives back. *)
Definition result (c : Call) : Type :=
  match c with
  | LoadTemplateConfig => option TemplateConfig
  | StoreSSLCertOnDisk _ _ | AddOrUpdateDHParam _ _ | ConfigureDynamically _ _
  | createOpentracingCfg _ | testTemplate _ | WriteFile _ _ _ => option error
  | SysctlSomaxconn => Z
  | IsIPv6Enabled | KlogV2Enabled => bool
  | TemplateWrite _ | CreateTemp _ _ => (string + error)%type
  | ReadFile _ | DiffCommand _ _ => string
  | ExecReload => (string * option error)%type
  | _ => unit
  end.

(** ** Programs *)

Inductive Prog (A : Type) : Type :=
| Ret (a : A)
| Vis (c : Call) (k : result c -> Prog A).
Arguments Ret {A} a.
Arguments Vis {A} c k.

Fixpoint bind {A B : Type} (p : Prog A) (f : A -> Prog B) : Prog B :=
  match p with
  | Ret a => f a
  | Vis c k => Vis c (fun r => bind (k r) f)
  end.

Definition call (c : Call) : Prog (result c) := Vis c Ret.

(** [defer d; body]: [d] runs when [body] is left, on every path. *)
Definition defer {A : Type} (d : Prog unit) (body : Prog A) : Prog A :=
  bind body (fun a => bind d (fun _ => Ret a)).

Notation "x <- p ;; q" := (bind p (fun x => q))
  (at level 100, p at next level, right associativity).
Notation "p ;; q" := (bind p (fun _ => q))
  (at level 100, right associativity).

(** ** The source, function by function *)

(** [configFromTemplate] converts a TemplateConfig into an
    ingress.Configuration; a nil template gives the empty configuration. *)
Definition configFromTemplate (tmpl : option TemplateConfig) : Configuration :=
  match tmpl with
  | None => ingress.empty
  | Some tmpl =>
      {| ingress.Backends := config.Backends tmpl;
         ingress.Servers := config.Servers tmpl;
         ingress.TCPEndpoints := config.TCPBackends tmpl;
         ingress.UDPEndpoints := config.UDPBackends tmpl;
         ingress.ConfigurationChecksum := "" |}
  end.

(** The assignments [updateConfiguration] makes through the [cfg] pointer. *)
Definition assignRuntimeFields (n : NGINXConfigurer) (somaxconn : Z) (ipv6 : bool)
    (cfg : TemplateConfig) : TemplateConfig :=
  {| config.DefaultSSLCertificate := config.DefaultSSLCertificate cfg;
     config.BacklogSize := somaxconn;
     config.Backends := config.Backends cfg;
     config.Servers := config.Servers cfg;
     config.TCPBackends := config.TCPBackends cfg;
     config.UDPBackends := config.UDPBackends cfg;
     config.Cfg :=
       {| config.Checksum := config.Checksum (config.Cfg cfg);
          config.SSLDHParam := config.DHParamFile cfg;
          config.Resolver := resolver n;
          config.DisableIpv6DNS := negb ipv6 |};
     config.GeneratedTime := config.GeneratedTime cfg;
     config.DHParamFile := config.DHParamFile cfg;
     config.DHParamContent := config.DHParamContent cfg |}.

(** The tail of [updateConfiguration]: the write to the live path and the
    reload command. *)
Definition writeAndReload (content : string) : Prog (option error) :=
  err <- call (WriteFile cfgPath content ReadWriteByUser) ;;
  match err with
  | Some e => Ret (Some e)
  | None =>
      out <- call ExecReload ;;
      let '(o, err) := out in
      match err with
      | Some e => Ret (Some (e +:+ newline +:+ o))
      | None => Ret None
      end
  end.

(** The block under [klog.V(2).Enabled()] when the live file differs from
    the rendered content, followed by the tail: a temporary file is
    created, written, compared with [diff] and removed; its deferred
    [Close] runs when [updateConfiguration] returns. *)
Definition diffAndReload (content : string) : Prog (option error) :=
  tmp <- call (CreateTemp "" "new-nginx-cfg") ;;
  match tmp with
  | inr e => Ret (Some e)
  | inl tmpfile =>
      defer (call (CloseFile tmpfile))
        (err <- call (WriteFile tmpfile content ReadWriteByUser) ;;
         match err with
         | Some e => Ret (Some e)
         | None =>
             call (DiffCommand cfgPath tmpfile) ;;
             call (Remove tmpfile) ;;
             writeAndReload content
         end)
  end.

(** [updateConfiguration] returns the error together with the snapshot as
    the assignments through the pointer leave it. *)
Definition updateConfiguration (n : NGINXConfigurer) (cfg : TemplateConfig)
    : Prog (TemplateConfig * option error) :=
  err <- call (createOpentracingCfg (config.Cfg cfg)) ;;
  match err with
  | Some e => Ret (cfg, Some e)
  | None =>
      somaxconn <- call SysctlSomaxconn ;;
      ipv6 <- call IsIPv6Enabled ;;
      let cfg := assignRuntimeFields n somaxconn ipv6 cfg in
      written <- call (TemplateWrite cfg) ;;
      match written with
      | inr e => Ret (cfg, Some e)
      | inl content =>
          err <- call (testTemplate content) ;;
          match err with
          | Some e => Ret (cfg, Some e)
          | None =>
              verbose <- call KlogV2Enabled ;;
              err <- (if verbose then
                        src <- call (ReadFile cfgPath) ;;
                        if negb (String.eqb src content)
                        then diffAndReload content
                        else writeAndReload content
                      else writeAndReload content) ;;
              Ret (cfg, err)
          end
      end
  end.

(** ** The retry loop *)

(** [wait.Backoff]; durations are in seconds, kept as reduced fractions
    (the rounding of Go's [float64] product is left out). *)
Record Backoff : Type := {
  Duration : Q;
  Factor : Q;
  Jitter : Q;
  Steps : Z
}.

(** [Backoff.Step]: the delay before the next attempt (with its jitter
    bound) and the duration that follows it. *)
Definition sleepOf (duration jitter : Q) : Call :=
  Sleep duration (if Qle_bool jitter 0 then 0%Q else jitter).

Definition nextDuration (duration factor : Q) : Q :=
  if Qeq_bool factor 0 then duration else Qred (duration * factor).

(** Modelled from the spec: [wait.ExponentialBackoff] is a library function
    that is not under src/.  An explicit loop, capped at [Steps] attempts:
    the condition is checked; the loop stops as soon as the condition
    reports success or an error, and gives that error back; between two
    attempts it sleeps for the current delay and multiplies the delay by
    the factor; when the attempts are used up it gives [ErrWaitTimeout].
    [S] is the state the condition closure captures. *)
Fixpoint backoffLoop {S : Type} (steps : nat) (duration factor jitter : Q)
    (condition : S -> Prog (bool * option error * S)) (s : S) : Prog (option error * S) :=
  match steps with
  | O => Ret (Some ErrWaitTimeout, s)
  | Datatypes.S steps' =>
      r <- condition s ;;
      let '(ok, err, s) := r in
      match err with
      | Some e => Ret (Some e, s)
      | None =>
          if ok then Ret (None, s)
          else
            match steps' with
            | O => Ret (Some ErrWaitTimeout, s)
            | Datatypes.S _ =>
                call (sleepOf duration jitter) ;;
                backoffLoop steps' (nextDuration duration factor) factor jitter condition s
            end
      end
  end.

Definition ExponentialBackoff {S : Type} (backoff : Backoff)
    (condition : S -> Prog (bool * option error * S)) (s : S) : Prog (option error * S) :=
  backoffLoop (Z.to_nat (Steps backoff)) (Duration backoff) (Factor backoff)
    (Jitter backoff) condition s.

(** The closure that [fullReconfiguration] hands to the loop; it captures
    [retriesRemaining]. *)
Definition pushOnce (newcfg oldcfg : Configuration) (retriesRemaining : Z)
    : Prog (bool * option error * Z) :=
  err <- call (ConfigureDynamically newcfg oldcfg) ;;
  match err with
  | None => Ret (true, None, retriesRemaining)
  | Some e =>
      let retriesRemaining := wrap_int (retriesRemaining - 1) in
      if 0 <? retriesRemaining
      then Ret (false, None, retriesRemaining)
      else Ret (false, Some e, retriesRemaining)
  end.

(** [retry := wait.Backoff{...}] *)
Definition retry (n : NGINXConfigurer) : Backoff :=
  {| Steps := wrap_int (1 + DynamicConfigurationRetries n);
     Duration := 1;
     Factor := 13 # 10;
     Jitter := 1 # 10 |}.

(** ** fullReconfiguration *)

(** The test guarding the write of the default certificate. *)
Definition certificateChanged (old : TemplateConfig) (cert : ingress.SSLCert) : bool :=
  match config.DefaultSSLCertificate old with
  | None => true
  | Some stored => negb (String.eqb (ingress.PemSHA stored) (ingress.PemSHA cert))
  end.

Definition reloadMessage : EventMessage :=
  newEventMessage EventTypeNormal "RELOAD"
    "NGINX reload triggered due to a change in configuration".

Definition reloadErrorMessage (err : error) : EventMessage :=
  newEventMessage EventTypeWarning "RELOAD" ("Error reloading NGINX: " +:+ err).

Definition dynamicErrorMessage (err : error) : EventMessage :=
  newEventMessage "Error" "RELOAD"
    ("Unexpected failure reconfiguring NGINX:" +:+ newline +:+ err).

(** [n.templateConfig] is read once: nothing assigns it before the last
    statement of the function, and the lock is held throughout. *)
Definition fullReconfiguration (n : NGINXConfigurer) (cfg : TemplateConfig) : Prog Outcome :=
  call Lock ;;
  defer (call Unlock)
    (call (SetSSLExpireTime (config.Servers cfg)) ;;
     call (SetSSLInfo (config.Servers cfg)) ;;
     tc <- call LoadTemplateConfig ;;
     match tc with
     | None => Ret Panicked
     | Some old =>
         if config.GeneratedTime old >=? config.GeneratedTime cfg then Ret Returned
         else
           let newcfg := configFromTemplate (Some cfg) in
           let oldcfg := configFromTemplate tc in
           err <- match config.DefaultSSLCertificate cfg with
                  | Some cert =>
                      if certificateChanged old cert then
                        let name := ingress.Name cert in
                        let name := if String.eqb name "" then FakeCertificateName else name in
                        call (StoreSSLCertOnDisk name cert)
                      else Ret None
                  | None => Ret None
                  end ;;
           match err with
           | Some _ => Ret Returned
           | None =>
               err <- match config.DHParamContent cfg with
                      | Some content =>
                          if negb (String.eqb (config.DHParamFile cfg) "") then
                            call (AddOrUpdateDHParam (config.DHParamFile cfg) content)
                          else Ret None
                      | None => Ret None
                      end ;;
               match err with
               | Some _ => Ret Returned
               | None =>
                   let configMapChange :=
                     match tc with
                     | Some stored =>
                         negb (String.eqb (config.Checksum (config.Cfg stored))
                                          (config.Checksum (config.Cfg cfg)))
                     | None => false
                     end in
                   reloaded <-
                     (if configMapChange || negb (IsDynamicConfigurationEnough newcfg oldcfg) then
                        let hash := Hash newcfg in
                        let newcfg := ingress.set_ConfigurationChecksum (pretty hash) newcfg in
                        r <- updateConfiguration n cfg ;;
                        let '(cfg, err) := r in
                        match err with
                        | Some e =>
                            call IncReloadErrorCount ;;
                            call (ConfigSuccess hash false) ;;
                            call (SendEvent (reloadErrorMessage e)) ;;
                            Ret None
                        | None =>
                            call (ConfigSuccess hash true) ;;
                            call IncReloadCount ;;
                            call (SendEvent reloadMessage) ;;
                            Ret (Some (cfg, newcfg))
                        end
                      else Ret (Some (cfg, newcfg))) ;;
                   match reloaded with
                   | None => Ret Returned
                   | Some (cfg, newcfg) =>
                       let isFirstSync := Equal oldcfg ingress.empty in
                       (if isFirstSync then call (Sleep 1 0) else Ret tt) ;;
                       let retry := retry n in
                       r <- ExponentialBackoff retry (pushOnce newcfg oldcfg) (Steps retry) ;;
                       match fst r with
                       | Some e =>
                           call (SendEvent (dynamicErrorMessage e)) ;;
                           Ret Returned
                       | None =>
                           let ri := GetRemovedIngresses oldcfg newcfg in
                           let re := GetRemovedHosts oldcfg newcfg in
                           let rc := GetRemovedCertificateSerialNumbers oldcfg newcfg in
                           call (RemoveMetrics ri re rc) ;;
                           call (StoreTemplateConfig cfg) ;;
                           Ret Returned
                       end
                   end
               end
           end
     end).

(** [syncIngress] passes the snapshot on. *)
Definition syncIngress (n : NGINXConfigurer) (cfg : TemplateConfig) : Prog Outcome :=
  fullReconfiguration n cfg.

(** ** Running a program *)

(** One observable call and its answer. *)
Record Event : Type := Ev { ev_call : Call; ev_result : result ev_call }.

(** The state a program runs against: the last applied snapshot
    ([n.templateConfig]), the files written with [os.WriteFile], the state of
    [n.configureLock], and the observable calls so far, oldest first. *)
Record World : Type := {
  templateConfig : option TemplateConfig;
  files : gmap string string;
  locked : bool;
  trace : list Event
}.

(** The collaborators: the answer to a call may depend on everything that
    happened before it. *)
Definition Env : Type := list Event -> forall c : Call, result c.

Definition record (c : Call) (r : result c) (w : World) : World :=
  {| templateConfig := templateConfig w; files := files w; locked := locked w;
     trace := trace w ++ [Ev c r] |}.

Definition set_templateConfig (tc : option TemplateConfig) (w : World) : World :=
  {| templateConfig := tc; files := files w; locked := locked w; trace := trace w |}.

Definition set_files (fs : gmap string string) (w : World) : World :=
  {| templateConfig := templateConfig w; files := fs; locked := locked w; trace := trace w |}.

Definition set_locked (b : bool) (w : World) : World :=
  {| templateConfig := templateConfig w; files := files w; locked := b; trace := trace w |}.

(** The answer to a call.  Calls without a result answer [tt]; the read of
    [n.templateConfig] answers from the orchestrator's state;
    [os.ReadFile] of a missing file gives the nil slice (its error is
    dropped by the caller); every other answer is the collaborator's. *)
Definition answer (E : Env) (w : World) (c : Call) : result c :=
  match c as c0 return result c0 with
  | Lock => tt
  | Unlock => tt
  | LoadTemplateConfig => templateConfig w
  | StoreTemplateConfig _ => tt
  | SetSSLExpireTime _ => tt
  | SetSSLInfo _ => tt
  | IncReloadErrorCount => tt
  | IncReloadCount => tt
  | ConfigSuccess _ _ => tt
  | RemoveMetrics _ _ _ => tt
  | SendEvent _ => tt
  | Sleep _ _ => tt
  | Remove _ => tt
  | CloseFile _ => tt
  | ReadFile path => default "" (files w !! path)
  | c0 => E (trace w) c0
  end.

(** The effect of an answered call on the orchestrator's state and on the
    files.  A successful [os.WriteFile] replaces the content of the path, a
    failed one is taken to leave it; [os.CreateTemp] creates an empty file;
    [os.Remove] deletes it.  Files kept by the collaborators themselves
    (certificates, DH parameters, the candidate file of the dry run) are
    theirs and show up as events only. *)
Definition effect (c : Call) : result c -> World -> World :=
  match c as c0 return result c0 -> World -> World with
  | Lock => fun _ w => set_locked true w
  | Unlock => fun _ w => set_locked false w
  | StoreTemplateConfig cfg => fun _ w => set_templateConfig (Some cfg) w
  | WriteFile path content _ => fun err w =>
      match err with
      | None => set_files (<[path := content]> (files w)) w
      | Some _ => w
      end
  | CreateTemp _ _ => fun tmp w =>
      match tmp with
      | inl name => set_files (<[name := ""]> (files w)) w
      | inr _ => w
      end
  | Remove path => fun _ w => set_files (delete path (files w)) w
  | _ => fun _ w => w
  end.

(** The reads and writes of [n.templateConfig] are the orchestrator's own
    and leave no event. *)
Definition observable (c : Call) : bool :=
  match c with
  | LoadTemplateConfig | StoreTemplateConfig _ => false
  | _ => true
  end.

Definition handle (E : Env) (w : World) (c : Call) : result c * World :=
  let r := answer E w c in
  (r, if observable c then record c r (effect c r w) else effect c r w).

Fixpoint run {A : Type} (E : Env) (p : Prog A) (w : World) : A * World :=
  match p with
  | Ret a => (a, w)
  | Vis c k => run E (k (fst (handle E w c))) (snd (handle E w c))
  end.

(** The events a run added to the trace. *)
Definition emitted (w w' : World) : list Event :=
  drop (length (trace w)) (trace w').

(** ** Reasoning about runs *)

Lemma run_bind {A B : Type} (E : Env) (p : Prog A) (f : A -> Prog B) (w : World) :
  run E (bind p f) w = run E (f (fst (run E p w))) (snd (run E p w)).
Proof.
  revert w. induction p as [a | c k IH]; intros w; simpl; [reflexivity |]. apply IH.
Qed.

(** A call adds at most one event, a run only appends. *)
Lemma effect_trace (c : Call) (r : result c) (w : World) :
  trace (effect c r w) = trace w.
Proof. destruct c; simpl; try reflexivity; destruct r; reflexivity. Qed.

Lemma handle_trace (E : Env) (w : World) (c : Call) :
  trace (snd (handle E w c)) =
  trace w ++ (if observable c then [Ev c (answer E w c)] else []).
Proof.
  unfold handle. simpl. destruct (observable c); simpl.
  - rewrite effect_trace. reflexivity.
  - rewrite effect_trace, app_nil_r. reflexivity.
Qed.

Lemma run_trace {A : Type} (E : Env) (p : Prog A) (w : World) :
  exists evs, trace (snd (run E p w)) = trace w ++ evs.
Proof.
  revert w. induction p as [a | c k IH]; intros w.
  - exists []. simpl. rewrite app_nil_r. reflexivity.
  - cbn [run]. destruct (IH (fst (handle E w c)) (snd (handle E w c))) as [e2 H2].
    eexists. rewrite H2, handle_trace, <- app_assoc. reflexivity.
Qed.

Lemma emitted_app (w w' : World) (evs : list Event) :
  trace w' = trace w ++ evs -> emitted w w' = evs.
Proof. intros H. unfold emitted. rewrite H. apply drop_app_length. Qed.

Lemma emitted_trace {A : Type} (E : Env) (p : Prog A) (w : World) :
  trace (snd (run E p w)) = trace w ++ emitted w (snd (run E p w)).
Proof.
  destruct (run_trace E p w) as [evs H]. rewrite (emitted_app _ _ _ H). exact H.
Qed.

Lemma emitted_trans (w0 w1 w2 : World) (a b : list Event) :
  trace w1 = trace w0 ++ a -> trace w2 = trace w1 ++ b -> emitted w0 w2 = a ++ b.
Proof.
  intros H1 H2. apply emitted_app. rewrite H2, H1, app_assoc. reflexivity.
Qed.

Lemma emitted_refl (w : World) : emitted w w = [].
Proof. apply emitted_app. rewrite app_nil_r. reflexivity. Qed.

(** [triple E p w Q]: running [p] from [w] ends with a result, a list of
    new events and a final state that satisfy [Q]. *)
Definition triple {A : Type} (E : Env) (p : Prog A) (w : World)
    (Q : A -> list Event -> World -> Prop) : Prop :=
  Q (fst (run E p w)) (emitted w (snd (run E p w))) (snd (run E p w)).

Arguments triple : simpl never.

Lemma triple_ret {A : Type} (E : Env) (a : A) (w : World) Q :
  Q a [] w -> triple E (Ret a) w Q.
Proof. unfold triple. simpl. rewrite emitted_refl. trivial. Qed.

Lemma triple_bind {A B : Type} (E : Env) (p : Prog A) (f : A -> Prog B) (w : World) Q :
  triple E p w (fun a evs w1 =>
    triple E (f a) w1 (fun b evs' w2 => Q b (evs ++ evs') w2)) ->
  triple E (bind p f) w Q.
Proof.
  unfold triple. rewrite run_bind.
  set (r1 := run E p w). set (r2 := run E (f (fst r1)) (snd r1)).
  intros H.
  rewrite (emitted_trans w (snd r1) (snd r2) _ _
             (emitted_trace E p w) (emitted_trace E (f (fst r1)) (snd r1))).
  exact H.
Qed.

Lemma triple_vis {A : Type} (E : Env) (c : Call) (k : result c -> Prog A) (w : World) Q :
  triple E (k (answer E w c)) (snd (handle E w c))
    (fun a evs w' =>
       Q a ((if observable c then [Ev c (answer E w c)] else []) ++ evs) w') ->
  triple E (Vis c k) w Q.
Proof.
  unfold triple. cbn [run].
  change (fst (handle E w c)) with (answer E w c).
  set (w1 := snd (handle E w c)). set (r := run E (k (answer E w c)) w1).
  intros H.
  rewrite (emitted_trans w w1 (snd r) _ _
             (handle_trace E w c) (emitted_trace E (k (answer E w c)) w1)).
  exact H.
Qed.

Lemma triple_call (E : Env) (c : Call) (w : World) Q :
  Q (answer E w c) (if observable c then [Ev c (answer E w c)] else [])
    (snd (handle E w c)) ->
  triple E (call c) w Q.
Proof.
  intros H. apply triple_vis, triple_ret. rewrite app_nil_r. exact H.
Qed.

Lemma triple_conseq {A : Type} (E : Env) (p : Prog A) (w : World)
    (Q Q' : A -> list Event -> World -> Prop) :
  triple E p w Q -> (forall a evs w', Q a evs w' -> Q' a evs w') -> triple E p w Q'.
Proof. unfold triple. auto. Qed.

Lemma triple_and {A : Type} (E : Env) (p : Prog A) (w : World)
    (Q Q' : A -> list Event -> World -> Prop) :
  triple E p w Q -> triple E p w Q' ->
  triple E p w (fun a evs w' => Q a evs w' /\ Q' a evs w').
Proof. unfold triple. auto. Qed.

(** [only P p]: every call that [p] can make satisfies [P], whatever the
    answers. *)
Fixpoint only {A : Type} (P : Call -> bool) (p : Prog A) : Prop :=
  match p with
  | Ret _ => True
  | Vis c k => P c = true /\ forall r, only P (k r)
  end.

Lemma only_bind {A B : Type} (P : Call -> bool) (p : Prog A) (f : A -> Prog B) :
  only P p -> (forall a, only P (f a)) -> only P (bind p f).
Proof.
  intros Hp Hf. induction p as [a | c k IH]; simpl; [apply Hf |].
  destruct Hp as [Hc Hk]. split; [exact Hc |]. intros r. apply IH, Hk.
Qed.

Lemma only_weaken {A : Type} (P P' : Call -> bool) (p : Prog A) :
  (forall c, P c = true -> P' c = true) -> only P p -> only P' p.
Proof.
  intros HP. induction p as [a | c k IH]; simpl; [trivial |].
  intros [Hc Hk]. split; [auto |]. intros r. apply IH, Hk.
Qed.

Lemma only_events {A : Type} (P : Call -> bool) (E : Env) (p : Prog A) (w : World) :
  only P p ->
  triple E p w (fun _ evs _ => forallb (fun e => P (ev_call e)) evs = true).
Proof.
  revert w. induction p as [a | c k IH]; intros w Hp.
  - apply triple_ret. reflexivity.
  - destruct Hp as [Hc Hk]. apply triple_vis.
    eapply triple_conseq; [apply IH, Hk |].
    intros a evs w' H. rewrite forallb_app, H.
    destruct (observable c); simpl; [rewrite Hc |]; reflexivity.
Qed.

(** A property of the state that every permitted call keeps is kept by the
    run. *)
Lemma only_keeps {A : Type} (P : Call -> bool) (I : World -> Prop)
    (E : Env) (p : Prog A) (w : World) :
  (forall c w0, P c = true -> I w0 -> I (snd (handle E w0 c))) ->
  only P p -> I w -> I (snd (run E p w)).
Proof.
  intros Hstep. revert w. induction p as [a | c k IH]; intros w Hp Hw; simpl; [exact Hw |].
  destruct Hp as [Hc Hk]. apply IH; [apply Hk |]. apply Hstep; assumption.
Qed.

(** ** Observations on events *)

(** The answers of one kind of call, oldest first. *)
Fixpoint observe {X : Type} (obs : Event -> option X) (evs : list Event) : list X :=
  match evs with
  | [] => []
  | e :: evs =>
      match obs e with
      | Some x => x :: observe obs evs
      | None => observe obs evs
      end
  end.

Lemma observe_app {X : Type} (obs : Event -> option X) (a b : list Event) :
  observe obs (a ++ b) = observe obs a ++ observe obs b.
Proof.
  induction a as [| e a IH]; simpl; [reflexivity |].
  destruct (obs e); simpl; rewrite IH; reflexivity.
Qed.

Lemma observe_none {X : Type} (obs : Event -> option X) (P : Call -> bool)
    (evs : list Event) :
  (forall e, P (ev_call e) = true -> obs e = None) ->
  forallb (fun e => P (ev_call e)) evs = true -> observe obs evs = [].
Proof.
  intros HP. induction evs as [| e evs IH]; simpl; [reflexivity |].
  intros H. apply andb_true_iff in H as [He Hevs].
  rewrite (HP e He). apply IH, Hevs.
Qed.

Lemma forallb_weaken (P P' : Event -> bool) (evs : list Event) :
  (forall e, P e = true -> P' e = true) ->
  forallb P evs = true -> forallb P' evs = true.
Proof.
  intros HP. rewrite !forallb_forall. auto.
Qed.

(** The dry run rejected the candidate. *)
Definition validationError (e : Event) : option error :=
  match e with
  | Ev (testTemplate _) r => r
  | _ => None
  end.

(** The reload command failed: its output and its error. *)
Definition reloadFailure (e : Event) : option (string * error) :=
  match e with
  | Ev ExecReload (o, Some err) => Some (o, err)
  | _ => None
  end.

(** The certificate store or the DH parameter store failed. *)
Definition certStoreFailure (e : Event) : option error :=
  match e with
  | Ev (StoreSSLCertOnDisk _ _) r => r
  | _ => None
  end.

Definition dhParamFailure (e : Event) : option error :=
  match e with
  | Ev (AddOrUpdateDHParam _ _) r => r
  | _ => None
  end.

(** The name and the certificate handed to the certificate store. *)
Definition certStoreCall (e : Event) : option (string * ingress.SSLCert) :=
  match e with
  | Ev (StoreSSLCertOnDisk name cert) _ => Some (name, cert)
  | _ => None
  end.

(** The answer to a dynamic push. *)
Definition pushResult (e : Event) : option (option error) :=
  match e with
  | Ev (ConfigureDynamically _ _) r => Some r
  | _ => None
  end.

(** The delay and the jitter bound of a sleep. *)
Definition sleepDelay (e : Event) : option (Q * Q) :=
  match e with
  | Ev (Sleep d j) _ => Some (d, j)
  | _ => None
  end.

(** Kinds of calls. *)
Definition isLockOp (c : Call) : bool :=
  match c with Lock | Unlock => true | _ => false end.

Definition isMetric (c : Call) : bool :=
  match c with
  | SetSSLExpireTime _ | SetSSLInfo _ | IncReloadErrorCount | IncReloadCount
  | ConfigSuccess _ _ | RemoveMetrics _ _ _ => true
  | _ => false
  end.

Definition isCertStore (c : Call) : bool :=
  match c with StoreSSLCertOnDisk _ _ => true | _ => false end.

Definition isDHParam (c : Call) : bool :=
  match c with AddOrUpdateDHParam _ _ => true | _ => false end.

Definition isSendEvent (c : Call) : bool :=
  match c with SendEvent _ => true | _ => false end.

Definition isSleep (c : Call) : bool :=
  match c with Sleep _ _ => true | _ => false end.

Definition isPush (c : Call) : bool :=
  match c with ConfigureDynamically _ _ => true | _ => false end.

Definition isRender (c : Call) : bool :=
  match c with TemplateWrite _ => true | _ => false end.

Definition isDryRun (c : Call) : bool :=
  match c with testTemplate _ => true | _ => false end.

Definition isWriteFile (c : Call) : bool :=
  match c with WriteFile _ _ _ => true | _ => false end.

Definition isReload (c : Call) : bool :=
  match c with ExecReload => true | _ => false end.

(** The calls [updateConfiguration] can make. *)
Definition isUpdateCall (c : Call) : bool :=
  match c with
  | createOpentracingCfg _ | SysctlSomaxconn | IsIPv6Enabled | TemplateWrite _
  | testTemplate _ | KlogV2Enabled | ReadFile _ | CreateTemp _ _ | WriteFile _ _ _
  | DiffCommand _ _ | Remove _ | CloseFile _ | ExecReload => true
  | _ => false
  end.

(** The calls that reach the proxy or its configuration artifact: those of
    [updateConfiguration] and the dynamic push. *)
Definition touchesProxy (c : Call) : bool := isUpdateCall c || isPush c.

Definition notUpdateCall (c : Call) : bool := negb (isUpdateCall c).

(** Neither a dynamic push nor a sleep. *)
Definition beforePush (c : Call) : bool := negb (isPush c || isSleep c).

(** Neither a write with [os.WriteFile] nor the reload command. *)
Definition noLiveWriteNoReload (e : Event) : bool :=
  negb (isWriteFile (ev_call e)) && negb (isReload (ev_call e)).

(** Everything but the two stores of TLS material. *)
Definition notTLSStore (c : Call) : bool := negb (isCertStore c || isDHParam c).

(** The calls that leave [n.templateConfig] and the lock as they are, and
    the calls that leave the files as they are. *)
Definition keepsOrchestrator (c : Call) : bool :=
  match c with StoreTemplateConfig _ | Lock | Unlock => false | _ => true end.

Definition keepsFiles (c : Call) : bool :=
  match c with WriteFile _ _ _ | CreateTemp _ _ | Remove _ => false | _ => true end.

Lemma keepsOrchestrator_handle (E : Env) (w : World) (c : Call) :
  keepsOrchestrator c = true ->
  templateConfig (snd (handle E w c)) = templateConfig w /\
  locked (snd (handle E w c)) = locked w.
Proof.
  destruct c; simpl; try discriminate; intros _; try (split; reflexivity).
  - destruct (E (trace w) (CreateTemp dir pattern)); split; reflexivity.
  - destruct (E (trace w) (WriteFile path content perm)); split; reflexivity.
Qed.

Lemma keepsFiles_handle (E : Env) (w : World) (c : Call) :
  keepsFiles c = true -> files (snd (handle E w c)) = files w.
Proof. destruct c; simpl; try discriminate; reflexivity. Qed.

(** What a program that makes calls of kind [P] only can do. *)
Lemma only_summary {A : Type} (P : Call -> bool) (E : Env) (p : Prog A) (w : World) :
  only P p ->
  triple E p w (fun _ evs w' =>
    forallb (fun e => P (ev_call e)) evs = true /\
    ((forall c, P c = true -> keepsOrchestrator c = true) ->
     templateConfig w' = templateConfig w /\ locked w' = locked w) /\
    ((forall c, P c = true -> keepsFiles c = true) -> files w' = files w)).
Proof.
  intros Hp. apply triple_and; [apply only_events, Hp |].
  unfold triple. split.
  - intros HP.
    apply (only_keeps P (fun w' => templateConfig w' = templateConfig w /\
                                   locked w' = locked w) E p w); auto.
    intros c w0 Hc [H1 H2].
    destruct (keepsOrchestrator_handle E w0 c (HP c Hc)) as [H3 H4].
    split; congruence.
  - intros HP.
    apply (only_keeps P (fun w' => files w' = files w) E p w); auto.
    intros c w0 Hc H1. rewrite (keepsFiles_handle E w0 c (HP c Hc)). exact H1.
Qed.

(** ** Proof steps *)

Ltac prog_simpl :=
  cbn [bind call defer writeAndReload diffAndReload].

Ltac world_simpl :=
  cbn [handle answer effect observable record set_files set_locked set_templateConfig
       fst snd trace files templateConfig locked ev_call ev_result
       app map forallb existsb In negb andb orb length
       observe validationError reloadFailure certStoreFailure dhParamFailure
       pushResult sleepDelay certStoreCall
       isLockOp isMetric isCertStore isDHParam isSendEvent isSleep isPush isRender
       isDryRun isWriteFile isReload isUpdateCall keepsOrchestrator keepsFiles
       touchesProxy notTLSStore notUpdateCall noLiveWriteNoReload beforePush] in *.

(** One step of a run: a return, a call, a sequence, or a case split on
    the answer the program inspects. *)
Ltac name_answer :=
  try match goal with
      | |- context [?f ?h ?c] =>
          is_var f;
          lazymatch type of f with Env => idtac end;
          let r := fresh "r" in generalize (f h c); intros r
      end.

Ltac split_on x :=
  tryif is_var x then destruct x else destruct x eqn:?.

Ltac step :=
  prog_simpl;
  lazymatch goal with
  | |- triple _ (Ret _) _ _ => apply triple_ret; world_simpl
  | |- triple _ (Vis _ _) _ _ => apply triple_vis; world_simpl; name_answer
  | |- triple _ (call _) _ _ => apply triple_call; world_simpl; name_answer
  | |- triple _ (bind (match ?x with _ => _ end) _) _ _ => split_on x
  | |- triple _ (bind (if ?x then _ else _) _) _ _ => split_on x
  | |- triple _ (bind _ _) _ _ => apply triple_bind
  | |- triple _ (match ?x with _ => _ end) _ _ => split_on x
  | |- triple _ (if ?x then _ else _) _ _ => split_on x
  end.

(** Every call of a program is of the wanted kind. *)
Ltac only_step :=
  cbn [bind call defer writeAndReload diffAndReload only];
  lazymatch goal with
  | |- True => exact I
  | |- _ /\ _ => split; [reflexivity | intros ?]
  | |- only _ (bind _ _) => apply only_bind; [| intros ?]
  | |- only _ (match ?x with _ => _ end) => destruct x
  | |- only _ (if ?x then _ else _) => destruct x
  end.

(** An event that is written out in the list. *)
Ltac here := repeat first [left; reflexivity | right].

Ltac kinds := let c := fresh "c" in intros c; destruct c; cbn; congruence.

Ltac event_kinds :=
  let c := fresh "c" in let r := fresh "r" in
  intros [c r]; destruct c; cbn; intros; first [reflexivity | discriminate].

Lemma only_updateConfiguration (n : NGINXConfigurer) (cfg : TemplateConfig) :
  only isUpdateCall (updateConfiguration n cfg).
Proof. unfold updateConfiguration. repeat only_step. Qed.

Lemma only_backoffLoop {S : Type} (P : Call -> bool) (steps : nat)
    (duration factor jitter : Q) (condition : S -> Prog (bool * option error * S)) (s : S) :
  (forall s, only P (condition s)) -> (forall d j, P (Sleep d j) = true) ->
  only P (backoffLoop steps duration factor jitter condition s).
Proof.
  intros Hc Hs. revert duration s.
  induction steps as [| steps IH]; intros duration s; cbn [backoffLoop]; [exact I |].
  apply only_bind; [apply Hc |]. intros [[ok err] s'].
  destruct err; [exact I |]. destruct ok; [exact I |].
  destruct steps; [exact I |]. unfold sleepOf. prog_simpl. cbn [only].
  split; [apply Hs | intros _; apply IH].
Qed.

Lemma only_pushOnce (newcfg oldcfg : Configuration) (retriesRemaining : Z) :
  only isPush (pushOnce newcfg oldcfg retriesRemaining).
Proof. unfold pushOnce. repeat only_step. Qed.

(** What [updateConfiguration] guarantees about the dry run and about the
    reload command. *)
Lemma updateConfiguration_spec (E : Env) (n : NGINXConfigurer) (cfg : TemplateConfig)
    (w : World) :
  triple E (updateConfiguration n cfg) w (fun r evs w' =>
    (forall err, In err (observe validationError evs) ->
       snd r = Some err /\ files w' = files w /\
       forallb (fun e => negb (isWriteFile (ev_call e)) && negb (isReload (ev_call e)))
               evs = true) /\
    (forall o err, In (o, err) (observe reloadFailure evs) ->
       snd r = Some (err +:+ newline +:+ o) /\
       exists content,
         files w' !! cfgPath = Some content /\
         In (Ev (WriteFile cfgPath content ReadWriteByUser) None) evs)).
Proof.
  unfold updateConfiguration. repeat step.
  all: split; [intros err0 Hin | intros o0 err0 Hin]; world_simpl.
  all: try contradiction.
  all: destruct Hin as [Hin | []]; inversion Hin; subst.
  all: split; [reflexivity |].
  all: try (split; reflexivity).
  all: eexists; (split; [apply lookup_insert_eq | here]).
Qed.

(** ** The retry loop, as a list of attempts *)

Lemma wrap_int_id (z : Z) : in_int_range z -> wrap_int z = z.
Proof.
  unfold in_int_range, wrap_int. intros H.
  rewrite Z.mod_small; lia.
Qed.

Lemma wrap_int_range (z : Z) : in_int_range (wrap_int z).
Proof.
  unfold in_int_range, wrap_int.
  pose proof (Z.mod_pos_bound (z + 2 ^ 63) (2 ^ 64) ltac:(lia)). lia.
Qed.

Lemma attempts_bound (r : Z) (k : nat) :
  in_int_range r -> (k <= Z.to_nat (wrap_int (1 + r)))%nat ->
  Z.of_nat k <= Z.max 0 (r + 1).
Proof.
  intros Hr Hlen.
  destruct (Z_lt_le_dec (1 + r) (2 ^ 63)) as [Hlt | Hge].
  - rewrite wrap_int_id in Hlen by (unfold in_int_range in *; lia). lia.
  - pose proof (wrap_int_range (1 + r)) as Hw. unfold in_int_range in Hr, Hw.
    assert (Hneg : wrap_int (1 + r) < 0).
    { unfold wrap_int in *.
      assert (1 + r = 2 ^ 63) as -> by lia.
      replace (2 ^ 63 + 2 ^ 63) with (0 + 1 * 2 ^ 64) by lia.
      rewrite Z.mod_add by lia. rewrite Z.mod_0_l by lia. lia. }
    lia.
Qed.

Section Attempts.
Context (newcfg oldcfg : Configuration) (factor jitter : Q).

(** The events of the loop when the pushes are answered by [answers]:
    the attempts, with one sleep between two of them, the delay growing
    by the factor. *)
Fixpoint loopEvents (duration : Q) (answers : list (option error)) : list Event :=
  match answers with
  | [] => []
  | a :: rest =>
      Ev (ConfigureDynamically newcfg oldcfg) a ::
      match rest with
      | [] => []
      | _ :: _ =>
          Ev (sleepOf duration jitter) tt ::
          loopEvents (nextDuration duration factor) rest
      end
  end.

(** The nominal delays of [k] sleeps. *)
Fixpoint delays (k : nat) (duration : Q) : list Q :=
  match k with
  | O => []
  | Datatypes.S k => duration :: delays k (nextDuration duration factor)
  end.

Lemma observe_loopEvents_push (duration : Q) (answers : list (option error)) :
  observe pushResult (loopEvents duration answers) = answers.
Proof.
  revert duration. induction answers as [| a rest IH]; intros duration; [reflexivity |].
  cbn [loopEvents observe pushResult]. f_equal.
  destruct rest as [| b rest]; [reflexivity |].
  cbn [observe sleepOf sleepDelay pushResult]. apply IH.
Qed.

Lemma observe_loopEvents_sleep (duration : Q) (answers : list (option error)) :
  observe sleepDelay (loopEvents duration answers) =
  map (fun d => (d, if Qle_bool jitter 0 then 0%Q else jitter))
      (delays (length answers - 1) duration).
Proof.
  revert duration. induction answers as [| a rest IH]; intros duration; [reflexivity |].
  cbn [loopEvents observe sleepDelay].
  destruct rest as [| b rest]; [reflexivity |].
  cbn [observe sleepOf sleepDelay]. rewrite IH.
  cbn [length Nat.sub delays map]. rewrite Nat.sub_0_r. reflexivity.
Qed.

Lemma loopEvents_kinds (duration : Q) (answers : list (option error)) :
  forallb (fun e => isPush (ev_call e) || isSleep (ev_call e))
          (loopEvents duration answers) = true.
Proof.
  revert duration. induction answers as [| a rest IH]; intros duration; [reflexivity |].
  cbn [loopEvents forallb ev_call isPush orb andb].
  destruct rest as [| b rest]; [reflexivity |].
  cbn [forallb ev_call sleepOf isPush isSleep orb andb]. apply IH.
Qed.

(** The last event of a loop with at least one attempt is its last
    attempt. *)
Lemma loopEvents_last (duration : Q) (answers : list (option error)) (a : option error) :
  exists pre,
    loopEvents duration (answers ++ [a]) =
    pre ++ [Ev (ConfigureDynamically newcfg oldcfg) a].
Proof.
  revert duration. induction answers as [| b rest IH]; intros duration.
  - exists []. reflexivity.
  - destruct (IH (nextDuration duration factor)) as [pre Hpre].
    cbn [app loopEvents]. destruct (rest ++ [a]) as [| c l] eqn:Hl.
    + destruct rest; discriminate.
    + rewrite Hpre. eexists (_ :: _ :: pre). reflexivity.
Qed.

(** How the loop ends: on the first accepted push, or with the error of
    the last push once the attempts are used up, or with the timeout
    when there is no attempt at all. *)
Definition loopOutcome (steps : nat) (err : option error)
    (answers : list (option error)) : Prop :=
  match err with
  | None => exists fails, answers = map Some fails ++ [None] /\
                          (length answers <= steps)%nat
  | Some e =>
      (steps = O /\ answers = [] /\ e = ErrWaitTimeout) \/
      (exists fails, answers = map Some fails ++ [Some e] /\ length answers = steps)
  end.

Lemma backoffLoop_pushOnce (E : Env) (steps : nat) :
  forall (duration : Q) (w : World),
    Z.of_nat steps < 2 ^ 63 ->
    triple E (backoffLoop steps duration factor jitter
                (pushOnce newcfg oldcfg) (Z.of_nat steps)) w
      (fun r evs _ =>
         exists answers,
           evs = loopEvents duration answers /\ loopOutcome steps (fst r) answers).
Proof.
  induction steps as [| steps IH]; intros duration w Hrange.
  - cbn [backoffLoop]. step. exists []. split; [reflexivity |]. left. auto.
  - cbn [backoffLoop]. unfold pushOnce. step.
    destruct r as [e |].
    + (* the push fails *)
      replace (wrap_int (Z.of_nat (Datatypes.S steps) - 1)) with (Z.of_nat steps)
        by (rewrite wrap_int_id; unfold in_int_range; lia).
      destruct steps as [| steps'].
      * change (0 <? Z.of_nat 0) with false. repeat step.
        exists [Some e]. split; [reflexivity |]. right. exists []. auto.
      * replace (0 <? Z.of_nat (Datatypes.S steps')) with true
          by (symmetry; apply Z.ltb_lt; lia).
        unfold sleepOf. step.
        eapply triple_conseq; [apply IH; lia |].
        intros [err rr] evs w' (answers & Hevs & Hout). cbn [fst] in *.
        exists (Some e :: answers). subst evs.
        assert (Hne : exists b l, answers = b :: l).
        { destruct err as [e' |]; [destruct Hout as [(H0 & _) | (fails & H & _)] |
                                     destruct Hout as (fails & H & _)];
            try discriminate; subst answers;
            destruct fails; cbn [map app]; eauto. }
        destruct Hne as (b & l & ->).
        split; [reflexivity |].
        destruct err as [e' |]; cbn [loopOutcome] in *.
        -- right. destruct Hout as [(H0 & _) | (fails & H & Hlen)]; [discriminate |].
           exists (e :: fails). rewrite H. split; [reflexivity |].
           rewrite <- H. cbn [length] in *. lia.
        -- destruct Hout as (fails & H & Hlen).
           exists (e :: fails). rewrite H. split; [reflexivity |].
           rewrite <- H. cbn [length] in *. lia.
    + (* the push is accepted *)
      step. exists [None]. split; [reflexivity |].
      exists []. split; [reflexivity |]. cbn [length]. lia.
Qed.
End Attempts.

(** The kinds of whole sub-programs, and the summary of a phase whose
    calls are all of one kind. *)
Ltac only_prog :=
  repeat
    (cbn [bind call defer writeAndReload diffAndReload only];
     lazymatch goal with
     | |- True => exact I
     | |- _ /\ _ => split; [reflexivity | intros ?]
     | |- only _ (updateConfiguration _ _) =>
         apply (only_weaken isUpdateCall); [kinds | apply only_updateConfiguration]
     | |- only _ (ExponentialBackoff _ _ _) =>
         unfold ExponentialBackoff; apply only_backoffLoop;
         [intros ?; apply (only_weaken isPush); [kinds | apply only_pushOnce]
         | intros ? ?; reflexivity]
     | |- only _ (bind _ _) => apply only_bind; [| intros ?]
     | |- only _ (match ?x with _ => _ end) => destruct x
     | |- only _ (if ?x then _ else _) => destruct x
     end).

Ltac summary P :=
  eapply triple_conseq; [apply (only_summary P); only_prog |];
  cbv beta; intros ? ? ? (? & ? & ?).

Ltac no_obs :=
  repeat match goal with
         | H : forallb (fun e => ?P (ev_call e)) ?evs = true |- context [observe ?obs ?evs] =>
             rewrite (observe_none obs P evs ltac:(event_kinds) H)
         | H : forallb (fun e => ?P (ev_call e)) ?evs = true,
           H' : context [observe ?obs ?evs] |- _ =>
             rewrite (observe_none obs P evs ltac:(event_kinds) H) in H'
         end.

(** ** The stores of TLS material *)

(** Stepping up to the decision between reload and dynamic push. *)
Ltac at_reload :=
  lazymatch goal with
  | |- triple _ (bind (if (_ || _)%bool then _ else _) _) _ _ => idtac
  end.

Ltac step_to_reload := repeat (prog_simpl; tryif at_reload then fail else step).

Lemma tls_failure_aborts (E : Env) (n : NGINXConfigurer) (cfg : TemplateConfig)
    (w : World) :
  triple E (fullReconfiguration n cfg) w (fun o evs w' =>
    observe certStoreFailure evs <> [] \/ observe dhParamFailure evs <> [] ->
    o = Returned /\
    forallb (fun e => negb (touchesProxy (ev_call e))) evs = true /\
    templateConfig w' = templateConfig w /\ files w' = files w /\ locked w' = false).
Proof.
  unfold fullReconfiguration. step_to_reload.
  all: try solve [intuition congruence].
  all: summary notTLSStore; repeat step; rewrite ?observe_app; no_obs.
  all: intros [Hc | Hc]; exfalso; apply Hc; reflexivity.
Qed.

(** ** Failures of the dry run and of the reload command *)

Lemma updateConfiguration_summary (E : Env) (n : NGINXConfigurer) (cfg : TemplateConfig)
    (w : World) :
  triple E (updateConfiguration n cfg) w (fun r evs w' =>
    ((forall err, In err (observe validationError evs) ->
        snd r = Some err /\ files w' = files w /\
        forallb noLiveWriteNoReload evs = true) /\
     (forall o err, In (o, err) (observe reloadFailure evs) ->
        snd r = Some (err +:+ newline +:+ o) /\
        exists content,
          files w' !! cfgPath = Some content /\
          In (Ev (WriteFile cfgPath content ReadWriteByUser) None) evs)) /\
    forallb (fun e => isUpdateCall (ev_call e)) evs = true /\
    templateConfig w' = templateConfig w /\ locked w' = locked w).
Proof.
  apply triple_and; [apply updateConfiguration_spec |].
  eapply triple_conseq; [apply (only_summary isUpdateCall), only_updateConfiguration |].
  cbv beta. intros _ evs w' (Hk & Ho & _). split; [exact Hk |]. apply Ho. kinds.
Qed.

Lemma in_app_l {A : Type} (x : A) (l1 l2 : list A) : In x l1 -> In x (l1 ++ l2).
Proof. intros H. apply in_or_app. left. exact H. Qed.

Lemma in_app_r {A : Type} (x : A) (l1 l2 : list A) : In x l2 -> In x (l1 ++ l2).
Proof. intros H. apply in_or_app. right. exact H. Qed.

(** An event in a list made of written-out events and named segments. *)
Ltac find_event :=
  lazymatch goal with
  | |- _ \/ _ => solve [left; reflexivity | right; find_event]
  | |- In _ (_ ++ _) => solve [apply in_app_l; find_event | apply in_app_r; find_event]
  | |- In _ (_ :: _) => cbn [In]; find_event
  | |- In _ _ => assumption
  end.

Lemma reload_failures (E : Env) (n : NGINXConfigurer) (cfg : TemplateConfig) (w : World) :
  triple E (fullReconfiguration n cfg) w (fun o evs w' =>
    (forall err, In err (observe validationError evs) ->
       o = Returned /\ files w' = files w /\
       forallb noLiveWriteNoReload evs = true /\
       templateConfig w' = templateConfig w /\
       In (Ev (SendEvent (reloadErrorMessage err)) tt) evs) /\
    (forall out err, In (out, err) (observe reloadFailure evs) ->
       o = Returned /\
       In (Ev IncReloadErrorCount tt) evs /\
       In (Ev (SendEvent (reloadErrorMessage (err +:+ newline +:+ out))) tt) evs /\
       templateConfig w' = templateConfig w /\
       exists content,
         files w' !! cfgPath = Some content /\
         In (Ev (WriteFile cfgPath content ReadWriteByUser) None) evs)).
Proof.
  unfold fullReconfiguration. step_to_reload.
  all: try solve [split; intros; contradiction].
  all: step.
  (* no reload is needed: the rest makes no call of updateConfiguration *)
  all: try solve [summary notUpdateCall; repeat step;
                  rewrite ?observe_app; no_obs; split; intros; contradiction].
  (* updateConfiguration runs *)
  all: do 2 step; eapply triple_conseq; [apply updateConfiguration_summary |];
    cbv beta; intros [cfg' [e |]] evs_u w_u ((Hval & Hrel) & Hk & Htc & Hlk);
    cbn [snd] in Hval, Hrel;
    [ repeat step | do 4 step; summary notUpdateCall; repeat step ];
    rewrite ?observe_app, ?app_nil_r in *; no_obs; world_simpl;
    rewrite ?app_nil_r in *.
  all: split; [intros err Hin; destruct (Hval err Hin) as (He & Hf & Hfa)
              | intros out err Hin; destruct (Hrel out err Hin) as (He & content & Hl & Hw)].
  all: try discriminate.
  all: inversion He; subst; clear He.
  all: repeat split; try congruence; try find_event.
  all: try (rewrite !forallb_app, Hfa; reflexivity).
  all: exists content; split; [exact Hl | find_event].
Qed.

(** ** The dynamic push, as a grammar of traces *)

(** The snapshot that [updateConfiguration] leaves behind the pointer. *)
Definition sameSnapshot (n : NGINXConfigurer) (cfg cfg' : TemplateConfig) : Prop :=
  cfg' = cfg \/ exists somaxconn ipv6, cfg' = assignRuntimeFields n somaxconn ipv6 cfg.

Lemma updateConfiguration_snapshot (E : Env) (n : NGINXConfigurer) (cfg : TemplateConfig)
    (w : World) :
  triple E (updateConfiguration n cfg) w (fun r _ _ => sameSnapshot n cfg (fst r)).
Proof.
  unfold updateConfiguration, sameSnapshot. repeat step.
  all: first [left; reflexivity | right; eauto].
Qed.

Lemma ExponentialBackoff_retry (E : Env) (n : NGINXConfigurer)
    (newcfg oldcfg : Configuration) (w : World) :
  triple E (ExponentialBackoff (retry n) (pushOnce newcfg oldcfg) (Steps (retry n))) w
    (fun r evs w' =>
       (exists answers,
          evs = loopEvents newcfg oldcfg (Factor (retry n)) (Jitter (retry n))
                  (Duration (retry n)) answers /\
          loopOutcome (Z.to_nat (Steps (retry n))) (fst r) answers) /\
       templateConfig w' = templateConfig w /\ locked w' = locked w /\
       files w' = files w).
Proof.
  apply triple_and.
  - unfold ExponentialBackoff.
    destruct (Z_le_gt_dec 0 (Steps (retry n))) as [Hpos | Hneg].
    + rewrite <- (Z2Nat.id (Steps (retry n))) at 2 by exact Hpos.
      apply backoffLoop_pushOnce. rewrite Z2Nat.id by exact Hpos.
      apply (wrap_int_range (1 + DynamicConfigurationRetries n)).
    + replace (Z.to_nat (Steps (retry n))) with O by lia.
      cbn [backoffLoop]. step. exists []. split; [reflexivity |]. left. auto.
  - eapply triple_conseq; [apply (only_summary (fun c => isPush c || isSleep c)); only_prog |].
    cbv beta. intros _ evs w' (_ & Ho & Hf).
    destruct Ho as [H1 H2]; [kinds |]. rewrite Hf by kinds. auto.
Qed.

Section PushPhase.
Context (n : NGINXConfigurer) (cfg : TemplateConfig) (tc0 : option TemplateConfig).

(** The traces of [fullReconfiguration]: either the call leaves before
    the push and the last applied snapshot stays; or the loop runs, after
    calls that are neither pushes nor sleeps and after the one second
    sleep of an initial sync, and it ends with the error event or with
    the cleanup of the metrics and the new last applied snapshot. *)
Inductive PushPhase : Outcome -> list Event -> World -> Prop :=
| pp_exit (o : Outcome) (w' : World) :
    templateConfig w' = tc0 -> (o = Panicked <-> tc0 = None) -> PushPhase o [] w'
| pp_failed (sync : list Event) (newcfg oldcfg : Configuration)
    (answers : list (option error)) (e : error) (w' : World) :
    sync = [] \/ sync = [Ev (Sleep 1 0) tt] ->
    loopOutcome (Z.to_nat (Steps (retry n))) (Some e) answers ->
    templateConfig w' = tc0 -> tc0 <> None ->
    PushPhase Returned
      (sync ++
       loopEvents newcfg oldcfg (Factor (retry n)) (Jitter (retry n))
         (Duration (retry n)) answers ++
       [Ev (SendEvent (dynamicErrorMessage e)) tt; Ev Unlock tt]) w'
| pp_pushed (sync : list Event) (newcfg oldcfg : Configuration)
    (answers : list (option error)) (ri re rc : list string)
    (cfg' : TemplateConfig) (w' : World) :
    sync = [] \/ sync = [Ev (Sleep 1 0) tt] ->
    loopOutcome (Z.to_nat (Steps (retry n))) None answers ->
    templateConfig w' = Some cfg' -> sameSnapshot n cfg cfg' -> tc0 <> None ->
    PushPhase Returned
      (sync ++
       loopEvents newcfg oldcfg (Factor (retry n)) (Jitter (retry n))
         (Duration (retry n)) answers ++
       [Ev (RemoveMetrics ri re rc) tt; Ev Unlock tt]) w'
| pp_before (pre : list Event) (o : Outcome) (evs : list Event) (w' : World) :
    forallb (fun e => beforePush (ev_call e)) pre = true ->
    PushPhase o evs w' -> PushPhase o (pre ++ evs) w'.

Lemma pp_cons (e : Event) (o : Outcome) (evs : list Event) (w' : World) :
  beforePush (ev_call e) = true -> PushPhase o evs w' -> PushPhase o (e :: evs) w'.
Proof.
  intros He H. apply (pp_before [e]); [cbn; rewrite He; reflexivity | exact H].
Qed.
End PushPhase.

Ltac outcome :=
  first [congruence | split; intros; first [reflexivity | discriminate]].

Ltac flatten := repeat first [rewrite <- app_assoc | progress cbn [app]].

Ltac before_push :=
  repeat first
    [ apply pp_cons; [reflexivity |]
    | apply pp_before;
      [ match goal with
        | H : forallb _ ?l = true |- forallb _ ?l = true =>
            revert H; apply forallb_weaken; event_kinds
        end |] ].

Lemma fullReconfiguration_traces (E : Env) (n : NGINXConfigurer) (cfg : TemplateConfig)
    (w : World) :
  triple E (fullReconfiguration n cfg) w (PushPhase n cfg (templateConfig w)).
Proof.
  unfold fullReconfiguration. step_to_reload.
  all: try solve [before_push; apply pp_exit; world_simpl; outcome].
  all: step.
  (* updateConfiguration runs, or the reload is skipped *)
  all: first
    [ do 2 step;
      eapply triple_conseq;
        [apply triple_and;
           [apply updateConfiguration_summary | apply updateConfiguration_snapshot] |];
      cbv beta; intros [cfg' [e |]] evs_u w_u ((_ & Hk & Htc & Hlk) & Hsnap);
      cbn [fst] in Hsnap; [repeat step | do 4 step]
    | prog_simpl ].
  (* the reload failed *)
  all: try solve [flatten; before_push; apply pp_exit; world_simpl; outcome].
  (* the initial sync, then the loop *)
  all: step; [step |]; step.
  all: eapply triple_conseq; [apply ExponentialBackoff_retry |];
    cbv beta; intros [err rr] evs_l w_l ((answers & -> & Hout) & Htc' & Hlk' & Hf');
    cbn [fst] in *; destruct err as [e |]; repeat step.
  all: flatten; before_push; world_simpl.
  all: first
    [ refine (pp_failed n cfg _ [Ev (Sleep 1 0) tt] _ _ _ _ _ _ _ _ _)
    | refine (pp_failed n cfg _ [] _ _ _ _ _ _ _ _ _)
    | refine (pp_pushed n cfg _ [Ev (Sleep 1 0) tt] _ _ _ _ _ _ _ _ _ _ _ _ _)
    | refine (pp_pushed n cfg _ [] _ _ _ _ _ _ _ _ _ _ _ _ _) ].
  all: world_simpl;
    first [assumption | reflexivity | congruence | left; reflexivity | right; reflexivity].
Qed.

(** The grammar in one line: calls before the push, the sleep of an
    initial sync, the loop, and what follows it. *)
Definition afterLoop (n : NGINXConfigurer) (cfg : TemplateConfig)
    (tc0 : option TemplateConfig) (o : Outcome) (w' : World)
    (sync : list Event) (answers : list (option error)) (post : list Event) : Prop :=
  (sync = [] /\ answers = [] /\ post = [] /\ templateConfig w' = tc0 /\
   (o = Panicked <-> tc0 = None)) \/
  (exists e,
     loopOutcome (Z.to_nat (Steps (retry n))) (Some e) answers /\
     post = [Ev (SendEvent (dynamicErrorMessage e)) tt; Ev Unlock tt] /\
     o = Returned /\ templateConfig w' = tc0 /\ tc0 <> None) \/
  (loopOutcome (Z.to_nat (Steps (retry n))) None answers /\
   exists ri re rc cfg',
     post = [Ev (RemoveMetrics ri re rc) tt; Ev Unlock tt] /\
     o = Returned /\ templateConfig w' = Some cfg' /\ sameSnapshot n cfg cfg' /\
     tc0 <> None).

Lemma PushPhase_shape (n : NGINXConfigurer) (cfg : TemplateConfig)
    (tc0 : option TemplateConfig) (o : Outcome) (evs : list Event) (w' : World) :
  PushPhase n cfg tc0 o evs w' ->
  exists pre sync newcfg oldcfg answers post,
    evs = pre ++ sync ++
          loopEvents newcfg oldcfg (Factor (retry n)) (Jitter (retry n))
            (Duration (retry n)) answers ++ post /\
    forallb (fun e => beforePush (ev_call e)) pre = true /\
    (sync = [] \/ sync = [Ev (Sleep 1 0) tt]) /\
    afterLoop n cfg tc0 o w' sync answers post.
Proof.
  induction 1 as [o w' Htc Ho | sync nc oc answers e w' Hs Hout Htc Hne
                 | sync nc oc answers ri re rc cfg' w' Hs Hout Htc Hsnap Hne
                 | pre o evs w' Hpre _ IH].
  - exists [], [], ingress.empty, ingress.empty, [], [].
    repeat split; auto. left. auto.
  - exists [], sync, nc, oc, answers. eexists. repeat split; auto.
    right. left. exists e. auto.
  - exists [], sync, nc, oc, answers. eexists. repeat split; auto.
    right. right. split; [exact Hout |]. exists ri, re, rc, cfg'. auto.
  - destruct IH as (pre' & sync & nc & oc & answers & post & -> & Hpre' & Hs & Hafter).
    exists (pre ++ pre'), sync, nc, oc, answers, post.
    rewrite <- app_assoc, forallb_app, Hpre, Hpre'. auto.
Qed.

(** The observations on a trace of that shape. *)
Lemma observe_pushes (pre sync : list Event) (newcfg oldcfg : Configuration)
    (factor jitter duration : Q) (answers : list (option error)) (post : list Event) :
  forallb (fun e => beforePush (ev_call e)) pre = true ->
  (sync = [] \/ sync = [Ev (Sleep 1 0) tt]) ->
  forallb (fun e => beforePush (ev_call e)) post = true ->
  observe pushResult
    (pre ++ sync ++ loopEvents newcfg oldcfg factor jitter duration answers ++ post) =
  answers.
Proof.
  intros Hpre Hs Hpost. rewrite !observe_app, observe_loopEvents_push.
  rewrite (observe_none pushResult beforePush pre) by (event_kinds || exact Hpre).
  rewrite (observe_none pushResult beforePush post) by (event_kinds || exact Hpost).
  destruct Hs as [-> | ->]; cbn; rewrite app_nil_r; reflexivity.
Qed.

Lemma observe_sleeps (pre sync : list Event) (newcfg oldcfg : Configuration)
    (factor jitter duration : Q) (answers : list (option error)) (post : list Event) :
  forallb (fun e => beforePush (ev_call e)) pre = true ->
  forallb (fun e => beforePush (ev_call e)) post = true ->
  observe sleepDelay
    (pre ++ sync ++ loopEvents newcfg oldcfg factor jitter duration answers ++ post) =
  observe sleepDelay sync ++
  map (fun d => (d, if Qle_bool jitter 0 then 0%Q else jitter))
      (delays factor (length answers - 1) duration).
Proof.
  intros Hpre Hpost. rewrite !observe_app, observe_loopEvents_sleep.
  rewrite (observe_none sleepDelay beforePush pre) by (event_kinds || exact Hpre).
  rewrite (observe_none sleepDelay beforePush post) by (event_kinds || exact Hpost).
  rewrite app_nil_r. reflexivity.
Qed.

(** The delays grow geometrically. *)
Lemma delays_geometric (factor : Q) (k : nat) :
  Qeq_bool factor 0 = false ->
  forall (duration : Q) (i : nat) (d : Q),
    delays factor k duration !! i = Some d ->
    (d == duration * factor ^ Z.of_nat i)%Q.
Proof.
  intros Hf. induction k as [| k IH]; intros duration i d Hd; [discriminate |].
  destruct i as [| i]; cbn in Hd.
  - injection Hd as <-. change (factor ^ Z.of_nat 0)%Q with 1%Q.
    rewrite Qmult_1_r. reflexivity.
  - apply IH in Hd. rewrite Hd. unfold nextDuration. rewrite Hf, Qred_correct.
    rewrite Nat2Z.inj_succ, <- Z.add_1_l, Qpower_plus' by lia.
    change (factor ^ 1)%Q with factor. rewrite Qmult_assoc. reflexivity.
Qed.

(** ** Stale snapshots and the nil last applied snapshot *)

(** The events of a call that stops at the staleness check. *)
Definition rejectedCall (cfg : TemplateConfig) : list Event :=
  [Ev Lock tt; Ev (SetSSLExpireTime (config.Servers cfg)) tt;
   Ev (SetSSLInfo (config.Servers cfg)) tt; Ev Unlock tt].

Lemma stale_run (E : Env) (n : NGINXConfigurer) (cfg old : TemplateConfig) (w : World) :
  templateConfig w = Some old ->
  config.GeneratedTime cfg <= config.GeneratedTime old ->
  triple E (fullReconfiguration n cfg) w (fun o evs w' =>
    o = Returned /\ evs = rejectedCall cfg /\
    templateConfig w' = templateConfig w /\ files w' = files w /\ locked w' = false).
Proof.
  intros Hold Hgen. unfold fullReconfiguration. do 4 step. rewrite Hold.
  replace (config.GeneratedTime old >=? config.GeneratedTime cfg) with true
    by (symmetry; apply Z.geb_le; lia).
  repeat step. auto.
Qed.

Lemma nil_run (E : Env) (n : NGINXConfigurer) (cfg : TemplateConfig) (w : World) :
  templateConfig w = None ->
  triple E (fullReconfiguration n cfg) w (fun o evs w' =>
    o = Panicked /\ evs = rejectedCall cfg /\
    templateConfig w' = None /\ files w' = files w /\ locked w' = false).
Proof.
  intros Hnil. unfold fullReconfiguration. do 4 step. rewrite Hnil.
  repeat step. auto.
Qed.

Lemma panics_iff_nil (E : Env) (n : NGINXConfigurer) (cfg : TemplateConfig) (w : World) :
  triple E (fullReconfiguration n cfg) w (fun o _ _ =>
    o = Panicked <-> templateConfig w = None).
Proof.
  eapply triple_conseq; [apply fullReconfiguration_traces |].
  cbv beta. intros o evs w' H.
  apply PushPhase_shape in H
    as (pre & sync & nc & oc & answers & post & _ & _ & _ & Hafter).
  destruct Hafter as [(_ & _ & _ & _ & Ho) | [(e & _ & _ & -> & _ & Hne)
                                            | (_ & ri & re & rc & cfg' & _ & -> & _ & _ & Hne)]].
  - exact Ho.
  - split; [discriminate | intros H; contradiction].
  - split; [discriminate | intros H; contradiction].
Qed.

(** ** What the traces say about the dynamic push *)

Lemma push_facts (E : Env) (n : NGINXConfigurer) (cfg : TemplateConfig) (w : World) :
  triple E (fullReconfiguration n cfg) w (fun o evs w' =>
    let pushes := observe pushResult evs in
    (length pushes <= Z.to_nat (Steps (retry n)))%nat /\
    (exists fails, pushes = map Some fails \/ pushes = map Some fails ++ [None]) /\
    (exists sync,
       (sync = [] \/ sync = [(1, 0)%Q]) /\
       observe sleepDelay evs =
       sync ++ map (fun d => (d, 1 # 10)) (delays (13 # 10) (length pushes - 1) 1)) /\
    (forall e, last pushes = Some (Some e) ->
       o = Returned /\ templateConfig w' = templateConfig w /\
       exists pre newcfg oldcfg,
         evs = pre ++ [Ev (ConfigureDynamically newcfg oldcfg) (Some e);
                       Ev (SendEvent (dynamicErrorMessage e)) tt; Ev Unlock tt]) /\
    (last pushes = Some None ->
       o = Returned /\
       exists cfg', templateConfig w' = Some cfg' /\ sameSnapshot n cfg cfg')).
Proof.
  eapply triple_conseq; [apply fullReconfiguration_traces |].
  cbv beta zeta. intros o evs w' H.
  apply PushPhase_shape in H
    as (pre & sync & nc & oc & answers & post & -> & Hpre & Hs & Hafter).
  assert (Hpost : forallb (fun e => beforePush (ev_call e)) post = true).
  { destruct Hafter as [(_ & _ & -> & _) | [(e & _ & -> & _)
                                            | (_ & ri & re & rc & cfg' & -> & _)]];
      reflexivity. }
  rewrite (observe_pushes pre sync nc oc _ _ _ answers post Hpre Hs Hpost).
  rewrite (observe_sleeps pre sync nc oc _ _ _ answers post Hpre Hpost).
  cbn [retry Duration Factor Jitter].
  change (if Qle_bool (1 # 10) 0 then 0%Q else (1 # 10)%Q) with (1 # 10)%Q.
  assert (Hsync : observe sleepDelay sync = [] \/ observe sleepDelay sync = [(1, 0)%Q]).
  { destruct Hs as [-> | ->]; [left | right]; reflexivity. }
  assert (Hsleeps : exists sync0,
             (sync0 = [] \/ sync0 = [(1, 0)%Q]) /\
             observe sleepDelay sync ++
             map (fun d => (d, 1 # 10)) (delays (13 # 10) (length answers - 1) 1) =
             sync0 ++
             map (fun d => (d, 1 # 10)) (delays (13 # 10) (length answers - 1) 1)).
  { exists (observe sleepDelay sync). split; [exact Hsync | reflexivity]. }
  destruct Hafter as [(_ & -> & _ & Htc & _)
                     | [(e & Hout & -> & -> & Htc & _)
                       | (Hout & ri & re & rc & cfg' & -> & -> & Htc & Hsnap & _)]].
  - (* the call left before the push *)
    refine (conj _ (conj _ (conj Hsleeps (conj _ _)))); cbn.
    + lia.
    + exists []. left. reflexivity.
    + discriminate.
    + discriminate.
  - (* the loop gave an error *)
    destruct Hout as [(H0 & -> & ->) | (fails & -> & Hlen)].
    + refine (conj _ (conj _ (conj Hsleeps (conj _ _)))); cbn.
      * lia.
      * exists []. left. reflexivity.
      * discriminate.
      * discriminate.
    + refine (conj _ (conj _ (conj Hsleeps (conj _ _)))).
      * lia.
      * exists (fails ++ [e]). left. rewrite map_app. reflexivity.
      * intros e0 H. rewrite last_snoc in H. injection H as <-.
        destruct (loopEvents_last nc oc (13 # 10) (1 # 10) 1 (map Some fails) (Some e))
          as [pre' Hpre'].
        split; [reflexivity |]. split; [exact Htc |].
        exists (pre ++ sync ++ pre'), nc, oc. rewrite Hpre'.
        rewrite <- !app_assoc. reflexivity.
      * intros H. rewrite last_snoc in H. discriminate.
  - (* the loop ended on an accepted push *)
    destruct Hout as (fails & -> & Hlen).
    refine (conj _ (conj _ (conj Hsleeps (conj _ _)))).
    + lia.
    + exists fails. right. reflexivity.
    + intros e0 H. rewrite last_snoc in H. discriminate.
    + intros _. split; [reflexivity |]. exists cfg'. auto.
Qed.

(** ** The default certificate and the skipped reload *)

(** The name under which the default certificate is stored. *)
Definition storedName (cert : ingress.SSLCert) : string :=
  if String.eqb (ingress.Name cert) "" then FakeCertificateName else ingress.Name cert.

(** The calls to the certificate store that a snapshot asks for. *)
Definition expectedCertStores (old cfg : TemplateConfig)
    : list (string * ingress.SSLCert) :=
  match config.DefaultSSLCertificate cfg with
  | Some cert => if certificateChanged old cert then [(storedName cert, cert)] else []
  | None => []
  end.

Lemma certificateChanged_true (old : TemplateConfig) (cert : ingress.SSLCert) :
  certificateChanged old cert = true <->
  (config.DefaultSSLCertificate old = None \/
   exists stored, config.DefaultSSLCertificate old = Some stored /\
                  ingress.PemSHA stored <> ingress.PemSHA cert).
Proof.
  unfold certificateChanged.
  destruct (config.DefaultSSLCertificate old) as [stored |].
  - destruct (String.eqb_spec (ingress.PemSHA stored) (ingress.PemSHA cert)) as [Heq | Hne];
      cbn; split.
    + discriminate.
    + intros [H | (s & H & Hs)]; [discriminate |]. injection H as <-. contradiction.
    + intros _. right. eauto.
    + reflexivity.
  - split; auto.
Qed.

Lemma certificate_store_calls (E : Env) (n : NGINXConfigurer) (cfg old : TemplateConfig)
    (w : World) :
  templateConfig w = Some old ->
  config.GeneratedTime old < config.GeneratedTime cfg ->
  triple E (fullReconfiguration n cfg) w (fun _ evs _ =>
    observe certStoreCall evs = expectedCertStores old cfg).
Proof.
  intros Hold Hgen. unfold fullReconfiguration, expectedCertStores, storedName.
  do 4 step. rewrite Hold.
  replace (config.GeneratedTime old >=? config.GeneratedTime cfg) with false
    by (symmetry; rewrite Z.geb_leb; apply Z.leb_gt; lia).
  step_to_reload.
  all: try reflexivity.
  all: summary notTLSStore; repeat step; rewrite ?observe_app; no_obs; reflexivity.
Qed.

Lemma unchanged_source_no_reload (E : Env) (n : NGINXConfigurer) (cfg old : TemplateConfig)
    (w : World) :
  templateConfig w = Some old ->
  config.Checksum (config.Cfg old) = config.Checksum (config.Cfg cfg) ->
  IsDynamicConfigurationEnough (configFromTemplate (Some cfg))
    (configFromTemplate (Some old)) = true ->
  triple E (fullReconfiguration n cfg) w (fun _ evs w' =>
    forallb (fun e => notUpdateCall (ev_call e)) evs = true /\ files w' = files w).
Proof.
  intros Hold Hsum Hdyn. unfold fullReconfiguration. do 4 step. rewrite Hold.
  rewrite Hsum, String.eqb_refl, Hdyn. cbn [negb orb].
  summary notUpdateCall. world_simpl.
  split; [assumption |]. match goal with H : _ -> files _ = _ |- _ => apply H end. kinds.
Qed.

(** ** The reconciliation lock *)












(** ** Concurrent callers *)
















(** ** The claims *)

(** C1.  When the dry run rejects the rendered artifact, [updateConfiguration]
    returns that error, no file has been written and no reload command has
    been run; for the whole reconciliation likewise: it returns, the files
    and the last applied snapshot are as before, nothing was written with
    [os.WriteFile], no reload was signalled, and the error is reported in a
    Warning RELOAD event. *)
Theorem validation_failure_leaves_live_artifact (E : Env) (n : NGINXConfigurer)
    (cfg : TemplateConfig) (w : World) (err : error) :
  (let r := run E (updateConfiguration n cfg) w in
   In err (observe validationError (emitted w (snd r))) ->
   snd (fst r) = Some err /\
   files (snd r) !! cfgPath = files w !! cfgPath /\
   files (snd r) = files w /\
   forallb noLiveWriteNoReload (emitted w (snd r)) = true) /\
  (let r := run E (fullReconfiguration n cfg) w in
   In err (observe validationError (emitted w (snd r))) ->
   fst r = Returned /\
   files (snd r) !! cfgPath = files w !! cfgPath /\
   files (snd r) = files w /\
   forallb noLiveWriteNoReload (emitted w (snd r)) = true /\
   templateConfig (snd r) = templateConfig w /\
   In (Ev (SendEvent (reloadErrorMessage err)) tt) (emitted w (snd r))).
Proof.
  split; cbv zeta; intros Hin.
  - destruct (updateConfiguration_spec E n cfg w) as [Hval _].
    destruct (Hval err Hin) as (He & Hf & Hq). rewrite Hf. auto.
  - destruct (reload_failures E n cfg w) as [Hval _].
    destruct (Hval err Hin) as (Ho & Hf & Hq & Htc & Hev). rewrite Hf. auto 6.
Qed.

(** C2, as the claim states it: a stale call has no side effect and makes no
    observable call to any collaborator. *)
Definition stale_call_is_silent (E : Env) (n : NGINXConfigurer) (cfg old : TemplateConfig)
    (w : World) : Prop :=
  templateConfig w = Some old ->
  config.GeneratedTime cfg <= config.GeneratedTime old ->
  let r := run E (fullReconfiguration n cfg) w in
  files (snd r) = files w /\ templateConfig (snd r) = templateConfig w /\
  forallb (fun e => isLockOp (ev_call e)) (emitted w (snd r)) = true.

(** C2, amended.  A call whose snapshot is not newer than the last applied
    one returns after the lock, the two SSL metric updates and the unlock,
    and nothing else: no file is written, the last applied snapshot stays,
    and no other collaborator is called. *)
Theorem stale_snapshot_only_updates_ssl_metrics (E : Env) (n : NGINXConfigurer)
    (cfg old : TemplateConfig) (w : World) :
  templateConfig w = Some old ->
  config.GeneratedTime cfg <= config.GeneratedTime old ->
  let r := run E (fullReconfiguration n cfg) w in
  fst r = Returned /\
  emitted w (snd r) = rejectedCall cfg /\
  templateConfig (snd r) = templateConfig w /\
  files (snd r) = files w /\
  locked (snd r) = false.
Proof. intros Hold Hgen. exact (stale_run E n cfg old w Hold Hgen). Qed.

(** C3, as the claim states it: after a dynamic push whose attempts all
    failed, the new snapshot is recorded as the last applied one. *)
Definition failed_push_still_recorded (E : Env) (n : NGINXConfigurer)
    (cfg : TemplateConfig) (w : World) : Prop :=
  let r := run E (fullReconfiguration n cfg) w in
  forall e, last (observe pushResult (emitted w (snd r))) = Some (Some e) ->
    exists cfg', templateConfig (snd r) = Some cfg' /\ sameSnapshot n cfg cfg'.

(** C3, amended.  When the last attempt of the dynamic push fails, the
    reconciliation returns; the events end with that attempt, the Error
    RELOAD event carrying its error and the unlock, so nothing that was
    applied before is reverted; and the last applied snapshot is the
    previous one, not the new one. *)
Theorem push_failure_keeps_previous_last_applied (E : Env) (n : NGINXConfigurer)
    (cfg : TemplateConfig) (w : World) (e : error) :
  let r := run E (fullReconfiguration n cfg) w in
  last (observe pushResult (emitted w (snd r))) = Some (Some e) ->
  fst r = Returned /\
  templateConfig (snd r) = templateConfig w /\
  exists pre newcfg oldcfg,
    emitted w (snd r) =
    pre ++ [Ev (ConfigureDynamically newcfg oldcfg) (Some e);
            Ev (SendEvent (dynamicErrorMessage e)) tt; Ev Unlock tt].
Proof.
  cbv zeta. intros Hlast.
  destruct (push_facts E n cfg w) as (_ & _ & _ & Hfail & _).
  exact (Hfail e Hlast).
Qed.

(** The calls that write a file (certificate, DH parameters, any
    [os.WriteFile]) or signal the proxy (reload command, dynamic push). *)
Definition writesOrSignals (c : Call) : bool :=
  isCertStore c || isDHParam c || isWriteFile c || isReload c || isPush c.

(** C4, as the claim states it: with the source checksum unchanged and the
    change dynamic-eligible, the reconciliation stops before any file write
    or signal to the proxy. *)
Definition unchanged_source_is_noop (E : Env) (n : NGINXConfigurer)
    (cfg old : TemplateConfig) (w : World) : Prop :=
  templateConfig w = Some old ->
  config.Checksum (config.Cfg old) = config.Checksum (config.Cfg cfg) ->
  IsDynamicConfigurationEnough (configFromTemplate (Some cfg))
    (configFromTemplate (Some old)) = true ->
  let r := run E (fullReconfiguration n cfg) w in
  forallb (fun e => negb (writesOrSignals (ev_call e))) (emitted w (snd r)) = true.

(** C4, amended.  With the source checksum unchanged and the change
    dynamic-eligible, [updateConfiguration] is not entered: the artifact is
    neither rendered, validated nor written, no reload is signalled, and
    the files are as before. *)
Theorem unchanged_source_skips_artifact_and_reload (E : Env) (n : NGINXConfigurer)
    (cfg old : TemplateConfig) (w : World) :
  templateConfig w = Some old ->
  config.Checksum (config.Cfg old) = config.Checksum (config.Cfg cfg) ->
  IsDynamicConfigurationEnough (configFromTemplate (Some cfg))
    (configFromTemplate (Some old)) = true ->
  let r := run E (fullReconfiguration n cfg) w in
  forallb (fun e => notUpdateCall (ev_call e)) (emitted w (snd r)) = true /\
  files (snd r) = files w.
Proof.
  intros Hold Hsum Hdyn. exact (unchanged_source_no_reload E n cfg old w Hold Hsum Hdyn).
Qed.

(** C5.  When the certificate store or the DH parameter store fails, the
    reconciliation returns without any call of [updateConfiguration] and
    without a dynamic push; the files and the last applied snapshot are as
    before and the lock is free. *)
Theorem tls_store_failure_leaves_proxy_untouched (E : Env) (n : NGINXConfigurer)
    (cfg : TemplateConfig) (w : World) :
  let r := run E (fullReconfiguration n cfg) w in
  observe certStoreFailure (emitted w (snd r)) <> [] \/
  observe dhParamFailure (emitted w (snd r)) <> [] ->
  fst r = Returned /\
  forallb (fun e => negb (touchesProxy (ev_call e))) (emitted w (snd r)) = true /\
  templateConfig (snd r) = templateConfig w /\
  files (snd r) = files w /\
  locked (snd r) = false.
Proof. exact (tls_failure_aborts E n cfg w). Qed.

(** C6.  The dynamic push is attempted at most [DynamicConfigurationRetries
    + 1] times (not at all when that count is not positive); between two
    attempts the call sleeps, the delays starting at one second and growing
    by the factor 13/10, each with jitter bound 1/10 (an initial sync adds
    one sleep of one second before the first attempt); every attempt but
    the last one failed, so the loop stops at the first accepted push, and
    then the snapshot is recorded; and when the last attempt fails, its
    error is the one reported. *)
Theorem dynamic_push_bounded_with_backoff (E : Env) (n : NGINXConfigurer)
    (cfg : TemplateConfig) (w : World) :
  in_int_range (DynamicConfigurationRetries n) ->
  let r := run E (fullReconfiguration n cfg) w in
  let evs := emitted w (snd r) in
  let pushes := observe pushResult evs in
  Z.of_nat (length pushes) <= Z.max 0 (DynamicConfigurationRetries n + 1) /\
  (exists sync,
     (sync = [] \/ sync = [(1, 0)%Q]) /\
     observe sleepDelay evs =
     sync ++ map (fun d => (d, 1 # 10)) (delays (13 # 10) (length pushes - 1) 1)) /\
  (forall i d, delays (13 # 10) (length pushes - 1) 1 !! i = Some d ->
               (d == (13 # 10) ^ Z.of_nat i)%Q) /\
  (exists fails, pushes = map Some fails \/ pushes = map Some fails ++ [None]) /\
  (last pushes = Some None ->
     exists cfg', templateConfig (snd r) = Some cfg' /\ sameSnapshot n cfg cfg') /\
  (forall e, last pushes = Some (Some e) ->
     In (Ev (SendEvent (dynamicErrorMessage e)) tt) evs).
Proof.
  intros Hrange. cbv zeta.
  destruct (push_facts E n cfg w) as (Hlen & Hfails & Hsleeps & Hfail & Hok).
  cbv zeta in Hlen, Hfails, Hsleeps, Hfail, Hok.
  refine (conj _ (conj Hsleeps (conj _ (conj Hfails (conj _ _))))).
  - exact (attempts_bound _ _ Hrange Hlen).
  - intros i d Hd. rewrite (delays_geometric (13 # 10) _ eq_refl _ _ _ Hd).
    apply Qmult_1_l.
  - intros Hlast. apply Hok in Hlast. tauto.
  - intros e Hlast. destruct (Hfail e Hlast) as (_ & _ & pre & nc & oc & ->).
    apply in_or_app. right. cbn. auto.
Qed.

(** C7, as the claim states it: on every reconciliation the certificate
    store is called if and only if the snapshot carries a default
    certificate that is new or whose content identity differs. *)
Definition store_iff_changed (E : Env) (n : NGINXConfigurer) (cfg old : TemplateConfig)
    (w : World) : Prop :=
  templateConfig w = Some old ->
  let r := run E (fullReconfiguration n cfg) w in
  observe certStoreCall (emitted w (snd r)) <> [] <->
  exists cert,
    config.DefaultSSLCertificate cfg = Some cert /\
    (config.DefaultSSLCertificate old = None \/
     exists stored, config.DefaultSSLCertificate old = Some stored /\
                    ingress.PemSHA stored <> ingress.PemSHA cert).

(** C7, amended.  On every reconciliation whose snapshot is newer than the
    last applied one, the certificate store is called if and only if the
    snapshot carries a default certificate and the last applied snapshot
    has none or one with another content identity; it is then called once,
    with that certificate under its name (the placeholder name when it has
    none). *)
Theorem default_certificate_stored_iff_changed (E : Env) (n : NGINXConfigurer)
    (cfg old : TemplateConfig) (w : World) :
  templateConfig w = Some old ->
  config.GeneratedTime old < config.GeneratedTime cfg ->
  let r := run E (fullReconfiguration n cfg) w in
  let stores := observe certStoreCall (emitted w (snd r)) in
  stores = expectedCertStores old cfg /\
  (stores <> [] <->
   exists cert,
     config.DefaultSSLCertificate cfg = Some cert /\
     (config.DefaultSSLCertificate old = None \/
      exists stored, config.DefaultSSLCertificate old = Some stored /\
                     ingress.PemSHA stored <> ingress.PemSHA cert)).
Proof.
  intros Hold Hgen. cbv zeta.
  pose proof (certificate_store_calls E n cfg old w Hold Hgen) as Hcalls.
  unfold triple in Hcalls. rewrite Hcalls. split; [reflexivity |].
  unfold expectedCertStores.
  destruct (config.DefaultSSLCertificate cfg) as [cert |].
  - destruct (certificateChanged old cert) eqn:Hch.
    + split; [| discriminate]. intros _. exists cert. split; [reflexivity |].
      apply certificateChanged_true, Hch.
    + split; [contradiction |]. intros (cert' & Hc & Hcond). injection Hc as <-.
      apply certificateChanged_true in Hcond. congruence.
  - split; [contradiction |]. intros (cert' & Hc & _). discriminate.
Qed.

(** C8.  When the reload command fails, [updateConfiguration] returns the
    error followed by a line feed and the output of the command, and the
    artifact is on the live path; the reconciliation returns, the
    reload-error metric is incremented, a Warning RELOAD event carries that
    error, and the last applied snapshot is not updated. *)
Theorem reload_failure_is_reported (E : Env) (n : NGINXConfigurer)
    (cfg : TemplateConfig) (w : World) (out : string) (err : error) :
  (let r := run E (updateConfiguration n cfg) w in
   In (out, err) (observe reloadFailure (emitted w (snd r))) ->
   snd (fst r) = Some (err +:+ newline +:+ out) /\
   exists content,
     files (snd r) !! cfgPath = Some content /\
     In (Ev (WriteFile cfgPath content ReadWriteByUser) None) (emitted w (snd r))) /\
  (let r := run E (fullReconfiguration n cfg) w in
   In (out, err) (observe reloadFailure (emitted w (snd r))) ->
   fst r = Returned /\
   In (Ev IncReloadErrorCount tt) (emitted w (snd r)) /\
   In (Ev (SendEvent (reloadErrorMessage (err +:+ newline +:+ out))) tt)
      (emitted w (snd r)) /\
   templateConfig (snd r) = templateConfig w /\
   exists content,
     files (snd r) !! cfgPath = Some content /\
     In (Ev (WriteFile cfgPath content ReadWriteByUser) None) (emitted w (snd r))).
Proof.
  split; cbv zeta; intros Hin.
  - destruct (updateConfiguration_spec E n cfg w) as [_ Hrel]. exact (Hrel out err Hin).
  - destruct (reload_failures E n cfg w) as [_ Hrel]. exact (Hrel out err Hin).
Qed.


(** C10, as the claim states it: with a nil stored reference the call
    faults before any other behaviour, so that its events are operations
    on the lock only. *)
Definition nil_fault_before_anything (E : Env) (n : NGINXConfigurer)
    (cfg : TemplateConfig) (w : World) : Prop :=
  templateConfig w = None ->
  let r := run E (fullReconfiguration n cfg) w in
  fst r = Panicked /\
  forallb (fun e => isLockOp (ev_call e)) (emitted w (snd r)) = true.

(** C10, amended.  With a nil stored last applied snapshot, every call of
    [fullReconfiguration] panics at the first dereference of that
    reference, after the lock and the two SSL metric updates and before
    anything else; the deferred unlock runs, and the state and the files
    are as before.  Yet [configFromTemplate] takes a nil template for the
    empty configuration. *)
Theorem nil_last_applied_faults_after_ssl_metrics (E : Env) (n : NGINXConfigurer)
    (cfg : TemplateConfig) (w : World) :
  templateConfig w = None ->
  let r := run E (fullReconfiguration n cfg) w in
  fst r = Panicked /\
  emitted w (snd r) = rejectedCall cfg /\
  templateConfig (snd r) = None /\
  files (snd r) = files w /\
  locked (snd r) = false /\
  configFromTemplate None = ingress.empty.
Proof.
  intros Hnil. cbv zeta.
  destruct (nil_run E n cfg w Hnil) as (Ho & Hevs & Htc & Hf & Hl).
  repeat split; assumption.
Qed.
(** ** More on [updateConfiguration] *)

(** What the calls of [updateConfiguration] were asked and what they
    answered. *)
Definition fileWrite (e : Event) : option (string * string * option error) :=
  match e with
  | Ev (WriteFile path content _) r => Some (path, content, r)
  | _ => None
  end.

Definition dryRun (e : Event) : option (string * option error) :=
  match e with
  | Ev (testTemplate content) r => Some (content, r)
  | _ => None
  end.

Definition rendered (e : Event) : option (TemplateConfig * (string + error)) :=
  match e with
  | Ev (TemplateWrite cfg) r => Some (cfg, r)
  | _ => None
  end.

Definition reloadRun (e : Event) : option (string * option error) :=
  match e with
  | Ev ExecReload r => Some r
  | _ => None
  end.

Definition tempCreated (e : Event) : option (string + error) :=
  match e with
  | Ev (CreateTemp _ _) r => Some r
  | _ => None
  end.

Definition somaxconnRead (e : Event) : option Z :=
  match e with
  | Ev SysctlSomaxconn r => Some r
  | _ => None
  end.

Definition ipv6Read (e : Event) : option bool :=
  match e with
  | Ev IsIPv6Enabled r => Some r
  | _ => None
  end.

(** The error of a collaborator of [updateConfiguration] that failed. *)
Definition failure (e : Event) : option error :=
  match e with
  | Ev (createOpentracingCfg _) r => r
  | Ev (TemplateWrite _) (inr err) => Some err
  | Ev (testTemplate _) r => r
  | Ev (CreateTemp _ _) (inr err) => Some err
  | Ev (WriteFile _ _ _) r => r
  | Ev ExecReload (_, r) => r
  | _ => None
  end.

Ltac world_simpl ::=
  cbn [handle answer effect observable record set_files set_locked set_templateConfig
       fst snd trace files templateConfig locked ev_call ev_result
       app map forallb existsb In negb andb orb length
       observe validationError reloadFailure certStoreFailure dhParamFailure
       pushResult sleepDelay certStoreCall
       fileWrite dryRun rendered reloadRun tempCreated somaxconnRead ipv6Read failure
       isLockOp isMetric isCertStore isDHParam isSendEvent isSleep isPush isRender
       isDryRun isWriteFile isReload isUpdateCall keepsOrchestrator keepsFiles
       touchesProxy notTLSStore notUpdateCall noLiveWriteNoReload beforePush] in *.

Ltac update_simpl :=
  cbn [observe fileWrite dryRun rendered reloadRun tempCreated somaxconnRead ipv6Read
       failure In app last fst snd] in *.

Ltac picks H :=
  repeat match type of H with
         | _ \/ _ => destruct H as [H | H]
         | False => contradiction
         | ?x = ?y =>
             first [is_var y; subst y | is_var x; subst x | discriminate H
                   | injection H as ? ? ?; subst
                   | injection H as ? ?; subst | injection H as ?; subst]
         end.

Lemma writes_carry_validated (E : Env) (n : NGINXConfigurer) (cfg : TemplateConfig)
    (w : World) :
  triple E (updateConfiguration n cfg) w (fun r evs w' =>
    forall path content res,
      In (path, content, res) (observe fileWrite evs) ->
      In (content, None) (observe dryRun evs) /\
      In (fst r, inl content) (observe rendered evs)).
Proof.
  unfold updateConfiguration. repeat step.
  all: intros path0 content0 res0 Hin; update_simpl.
  all: try contradiction.
  all: picks Hin.
  all: split; here.
Qed.

Lemma reload_after_validated_write (E : Env) (n : NGINXConfigurer) (cfg : TemplateConfig)
    (w : World) :
  triple E (updateConfiguration n cfg) w (fun r evs w' =>
    (forall out, In out (observe reloadRun evs) ->
       observe reloadRun evs = [out] /\
       exists content,
         In (content, None) (observe dryRun evs) /\
         In (cfgPath, content, None) (observe fileWrite evs) /\
         files w' !! cfgPath = Some content) /\
    (snd r = None <-> exists o, In (o, None) (observe reloadRun evs))).
Proof.
  unfold updateConfiguration. repeat step.
  all: split; [intros out Hin | split; [intros Hnone | intros [o' Hin]]].
  all: try discriminate; try contradiction.
  all: try (picks Hin; fail).
  all: try (picks Hin; reflexivity).
  all: try (lazymatch goal with |- exists _, _ => eexists; solve [here] end).
  all: picks Hin; (split; [reflexivity |]).
  all: eexists; split; [here | split; [here | apply lookup_insert_eq]].
Qed.

Lemma updateConfiguration_fail_fast (E : Env) (n : NGINXConfigurer) (cfg : TemplateConfig)
    (w : World) :
  triple E (updateConfiguration n cfg) w (fun r evs w' =>
    (snd r = None /\ observe failure evs = []) \/
    (exists e,
       observe failure evs = [e] /\
       ((snd r = Some e /\ observe reloadRun evs = []) \/
        (exists o, observe reloadRun evs = [(o, Some e)] /\
                   snd r = Some (e +:+ newline +:+ o))))).
Proof.
  unfold updateConfiguration. repeat step.
  all: first
    [ left; split; reflexivity
    | right; eexists; split; [reflexivity |];
      first [left; split; reflexivity | right; eexists; split; reflexivity] ].
Qed.


Lemma temporary_file_failure (E : Env) (n : NGINXConfigurer) (cfg : TemplateConfig)
    (w : World) :
  triple E (updateConfiguration n cfg) w (fun r evs w' =>
    forall e, In (inr e) (observe tempCreated evs) ->
      snd r = Some e /\ observe fileWrite evs = [] /\ observe reloadRun evs = [] /\
      files w' = files w /\
      exists content, In (content, None) (observe dryRun evs)).
Proof.
  unfold updateConfiguration. repeat step.
  all: intros e0 Hin; update_simpl; try contradiction.
  all: picks Hin.
  all: repeat split; eexists; here.
Qed.

Lemma rendered_snapshot (E : Env) (n : NGINXConfigurer) (cfg : TemplateConfig)
    (w : World) :
  triple E (updateConfiguration n cfg) w (fun r evs w' =>
    forall c res, In (c, res) (observe rendered evs) ->
      fst r = c /\
      exists somaxconn ipv6,
        observe somaxconnRead evs = [somaxconn] /\ observe ipv6Read evs = [ipv6] /\
        c = assignRuntimeFields n somaxconn ipv6 cfg).
Proof.
  unfold updateConfiguration. repeat step.
  all: intros c res Hin; update_simpl; try contradiction.
  all: picks Hin.
  all: split; [reflexivity | eexists; eexists; repeat split].
Qed.

(** X1.  Whatever [updateConfiguration] writes with [os.WriteFile], to the
    temporary file of the diff or to the live path, is content that the
    dry run accepted before and that the template produced from the
    snapshot as the call leaves it. *)
Theorem update_writes_only_validated_content (E : Env) (n : NGINXConfigurer)
    (cfg : TemplateConfig) (w : World) (path content : string) (res : option error) :
  let r := run E (updateConfiguration n cfg) w in
  In (path, content, res) (observe fileWrite (emitted w (snd r))) ->
  In (content, None) (observe dryRun (emitted w (snd r))) /\
  In (fst (fst r), inl content) (observe rendered (emitted w (snd r))).
Proof. exact (writes_carry_validated E n cfg w path content res). Qed.

(** X2.  [updateConfiguration] runs the reload command at most once, and
    only after the live path has been written, successfully, with content
    that passed the dry run: that content is then the content of the live
    path.  The call returns nil exactly when the reload command ran and
    succeeded. *)
Theorem update_reloads_after_validated_write (E : Env) (n : NGINXConfigurer)
    (cfg : TemplateConfig) (w : World) :
  let r := run E (updateConfiguration n cfg) w in
  let evs := emitted w (snd r) in
  (forall out, In out (observe reloadRun evs) ->
     observe reloadRun evs = [out] /\
     exists content,
       In (content, None) (observe dryRun evs) /\
       In (cfgPath, content, None) (observe fileWrite evs) /\
       files (snd r) !! cfgPath = Some content) /\
  (snd (fst r) = None <-> exists o, In (o, None) (observe reloadRun evs)).
Proof. exact (reload_after_validated_write E n cfg w). Qed.

(** X3.  [updateConfiguration] stops at the first collaborator that fails:
    a run holds at most one failed call (tracing setup, rendering, dry run,
    temporary file, file write, reload command).  Without a failure it
    returns nil; otherwise it returns the error of that call, and the reload
    command was not run, or the failed call is the reload command itself
    and the error is followed by a line feed and the output of the
    command. *)
Theorem update_stops_at_first_failure (E : Env) (n : NGINXConfigurer)
    (cfg : TemplateConfig) (w : World) :
  let r := run E (updateConfiguration n cfg) w in
  let evs := emitted w (snd r) in
  (snd (fst r) = None /\ observe failure evs = []) \/
  (exists e,
     observe failure evs = [e] /\
     ((snd (fst r) = Some e /\ observe reloadRun evs = []) \/
      (exists o, observe reloadRun evs = [(o, Some e)] /\
                 snd (fst r) = Some (e +:+ newline +:+ o)))).
Proof. exact (updateConfiguration_fail_fast E n cfg w). Qed.


(** X5.  When the temporary file of the diff cannot be created, the update
    is given up although the dry run accepted the content:
    [updateConfiguration] returns that error, nothing is written, the
    files are as before and the reload command is not run. *)
Theorem update_gives_up_without_temporary_file (E : Env) (n : NGINXConfigurer)
    (cfg : TemplateConfig) (w : World) (e : error) :
  let r := run E (updateConfiguration n cfg) w in
  In (inr e) (observe tempCreated (emitted w (snd r))) ->
  snd (fst r) = Some e /\
  observe fileWrite (emitted w (snd r)) = [] /\
  observe reloadRun (emitted w (snd r)) = [] /\
  files (snd r) = files w /\
  exists content, In (content, None) (observe dryRun (emitted w (snd r))).
Proof. exact (temporary_file_failure E n cfg w e). Qed.

(** X6.  The snapshot handed to the template is the one the call leaves
    behind the pointer.  Its backlog size is what [SysctlSomaxconn]
    answered, its DH parameter setting is the DH parameter file of the
    snapshot, its resolver is the orchestrator's, IPv6 DNS is disabled
    exactly when [IsIPv6Enabled] answered no; the checksum, the generation
    time, the default certificate and the routing are those of the
    snapshot. *)
Theorem update_renders_with_runtime_fields (E : Env) (n : NGINXConfigurer)
    (cfg : TemplateConfig) (w : World) (c : TemplateConfig) (res : string + error) :
  let r := run E (updateConfiguration n cfg) w in
  In (c, res) (observe rendered (emitted w (snd r))) ->
  fst (fst r) = c /\
  exists somaxconn ipv6,
    observe somaxconnRead (emitted w (snd r)) = [somaxconn] /\
    observe ipv6Read (emitted w (snd r)) = [ipv6] /\
    config.BacklogSize c = somaxconn /\
    config.SSLDHParam (config.Cfg c) = config.DHParamFile cfg /\
    config.Resolver (config.Cfg c) = resolver n /\
    config.DisableIpv6DNS (config.Cfg c) = negb ipv6 /\
    config.Checksum (config.Cfg c) = config.Checksum (config.Cfg cfg) /\
    config.GeneratedTime c = config.GeneratedTime cfg /\
    config.DefaultSSLCertificate c = config.DefaultSSLCertificate cfg /\
    config.DHParamFile c = config.DHParamFile cfg /\
    config.DHParamContent c = config.DHParamContent cfg /\
    configFromTemplate (Some c) = configFromTemplate (Some cfg).
Proof.
  cbv zeta. intros Hin.
  destruct (rendered_snapshot E n cfg w c res Hin) as (Hr & somaxconn & ipv6 & Hs & Hi & ->).
  split; [exact Hr |]. exists somaxconn, ipv6. repeat split; assumption.
Qed.

(** ** More on [fullReconfiguration] *)

Lemma sameSnapshot_generation (n : NGINXConfigurer) (cfg cfg' : TemplateConfig) :
  sameSnapshot n cfg cfg' -> config.GeneratedTime cfg' = config.GeneratedTime cfg.
Proof. intros [-> | (somaxconn & ipv6 & ->)]; reflexivity. Qed.

(** The last applied snapshot stays, or it becomes the new snapshot, which
    is then the newer one. *)
Lemma stored_moves_forward (E : Env) (n : NGINXConfigurer) (cfg old : TemplateConfig)
    (w : World) :
  templateConfig w = Some old ->
  triple E (fullReconfiguration n cfg) w (fun _ _ w' =>
    templateConfig w' = Some old \/
    exists cfg', templateConfig w' = Some cfg' /\ sameSnapshot n cfg cfg' /\
                 config.GeneratedTime old < config.GeneratedTime cfg).
Proof.
  intros Hold.
  destruct (Z_le_gt_dec (config.GeneratedTime cfg) (config.GeneratedTime old)) as [Hle | Hgt].
  - eapply triple_conseq; [apply (stale_run E n cfg old w Hold Hle) |].
    cbv beta. intros _ _ w' (_ & _ & Htc & _). left. congruence.
  - eapply triple_conseq; [apply fullReconfiguration_traces |].
    cbv beta. intros o evs w' H.
    apply PushPhase_shape in H
      as (pre & sync & nc & oc & answers & post & _ & _ & _ & Hafter).
    destruct Hafter as [(_ & _ & _ & Htc & _)
                       | [(e & _ & _ & _ & Htc & _)
                         | (_ & ri & re & rc & cfg' & _ & _ & Htc & Hsnap & _)]].
    + left. congruence.
    + left. congruence.
    + right. exists cfg'. repeat split; [exact Htc | exact Hsnap | lia].
Qed.

(** Snapshots handed to [syncIngress] one after the other. *)
Fixpoint syncAll (E : Env) (n : NGINXConfigurer) (cfgs : list TemplateConfig)
    (w : World) : World :=
  match cfgs with
  | [] => w
  | cfg :: rest => syncAll E n rest (snd (run E (syncIngress n cfg) w))
  end.

(** X7.  Over any sequence of calls to [syncIngress], the last applied
    snapshot only moves forward: it is never lost, its generation time
    never decreases, and it is the one stored at the start or one of the
    snapshots that were handed in, as [updateConfiguration] left it. *)
Theorem last_applied_only_moves_forward (E : Env) (n : NGINXConfigurer)
    (cfgs : list TemplateConfig) (old : TemplateConfig) (w : World) :
  templateConfig w = Some old ->
  exists new,
    templateConfig (syncAll E n cfgs w) = Some new /\
    config.GeneratedTime old <= config.GeneratedTime new /\
    (new = old \/
     exists cfg, In cfg cfgs /\ sameSnapshot n cfg new /\
                 config.GeneratedTime old < config.GeneratedTime new).
Proof.
  revert old w. induction cfgs as [| cfg rest IH]; intros old w Hold.
  - exists old. cbn. split; [exact Hold |]. split; [lia | left; reflexivity].
  - cbn [syncAll]. unfold syncIngress.
    pose proof (stored_moves_forward E n cfg old w Hold) as Hstep. unfold triple in Hstep.
    destruct Hstep as [Hsame | (cfg' & Htc & Hsnap & Hlt)].
    + destruct (IH old _ Hsame) as (new & Hnew & Hle & Hfrom).
      exists new. split; [exact Hnew |]. split; [exact Hle |].
      destruct Hfrom as [-> | (c & Hin & Hs & Hl)]; [left; reflexivity |].
      right. exists c. split; [right; exact Hin | auto].
    + pose proof (sameSnapshot_generation n cfg cfg' Hsnap) as Hgen.
      destruct (IH cfg' _ Htc) as (new & Hnew & Hle & Hfrom).
      exists new. split; [exact Hnew |]. split; [lia |]. right.
      destruct Hfrom as [-> | (c & Hin & Hs & Hl)].
      * exists cfg. split; [left; reflexivity |]. split; [exact Hsnap | lia].
      * exists c. split; [right; exact Hin |]. split; [exact Hs | lia].
Qed.

Lemma recorded_only_when_pushed (E : Env) (n : NGINXConfigurer) (cfg : TemplateConfig)
    (w : World) :
  triple E (fullReconfiguration n cfg) w (fun o evs w' =>
    last (observe pushResult evs) <> Some None ->
    templateConfig w' = templateConfig w).
Proof.
  eapply triple_conseq; [apply fullReconfiguration_traces |].
  cbv beta. intros o evs w' H.
  apply PushPhase_shape in H
    as (pre & sync & nc & oc & answers & post & -> & Hpre & Hs & Hafter).
  assert (Hpost : forallb (fun e => beforePush (ev_call e)) post = true).
  { destruct Hafter as [(_ & _ & -> & _) | [(e & _ & -> & _)
                                            | (_ & ri & re & rc & cfg' & -> & _)]];
      reflexivity. }
  rewrite (observe_pushes pre sync nc oc _ _ _ answers post Hpre Hs Hpost).
  destruct Hafter as [(_ & _ & _ & Htc & _)
                     | [(e & _ & _ & _ & Htc & _)
                       | (Hout & _)]]; try (intros _; exact Htc).
  destruct Hout as (fails & -> & _). rewrite last_snoc. intros Hne. contradiction.
Qed.

(** X8.  The last applied snapshot changes only when the last dynamic push
    was accepted: a call that made no push, or whose last push failed,
    leaves it as it was. *)
Theorem snapshot_recorded_only_after_accepted_push (E : Env) (n : NGINXConfigurer)
    (cfg : TemplateConfig) (w : World) :
  let r := run E (fullReconfiguration n cfg) w in
  last (observe pushResult (emitted w (snd r))) <> Some None ->
  templateConfig (snd r) = templateConfig w.
Proof. exact (recorded_only_when_pushed E n cfg w). Qed.

(** X11.  Handing the same snapshot, or any snapshot that is not newer, to
    [syncIngress] again after a reconciliation whose push was accepted is
    rejected as stale: the second call consists of the lock, the two SSL
    metric updates and the unlock, and leaves the last applied snapshot and
    the files alone. *)
Theorem resubmitted_snapshot_is_stale (E : Env) (n : NGINXConfigurer)
    (cfg cfg2 : TemplateConfig) (w : World) :
  let r1 := run E (syncIngress n cfg) w in
  let r2 := run E (syncIngress n cfg2) (snd r1) in
  last (observe pushResult (emitted w (snd r1))) = Some None ->
  config.GeneratedTime cfg2 <= config.GeneratedTime cfg ->
  fst r2 = Returned /\
  emitted (snd r1) (snd r2) = rejectedCall cfg2 /\
  templateConfig (snd r2) = templateConfig (snd r1) /\
  files (snd r2) = files (snd r1).
Proof.
  cbv zeta. unfold syncIngress. intros Hlast Hgen.
  destruct (push_facts E n cfg w) as (_ & _ & _ & _ & Hok).
  destruct (Hok Hlast) as (_ & cfg' & Htc & Hsnap).
  pose proof (sameSnapshot_generation n cfg cfg' Hsnap) as Hg.
  destruct (stale_run E n cfg2 cfg' _ Htc ltac:(lia)) as (Hr & Hevs & Htc2 & Hf & _).
  auto.
Qed.

(** The DH parameters handed to [AddOrUpdateDHParam]. *)
Definition dhParamCall (e : Event) : option (string * string) :=
  match e with
  | Ev (AddOrUpdateDHParam file content) _ => Some (file, content)
  | _ => None
  end.

(** The calls to the DH parameter store that a snapshot asks for. *)
Definition expectedDHParams (cfg : TemplateConfig) : list (string * string) :=
  match config.DHParamContent cfg with
  | Some content =>
      if String.eqb (config.DHParamFile cfg) "" then [] else [(config.DHParamFile cfg, content)]
  | None => []
  end.

Ltac world_simpl ::=
  cbn [handle answer effect observable record set_files set_locked set_templateConfig
       fst snd trace files templateConfig locked ev_call ev_result
       app map forallb existsb In negb andb orb length
       observe validationError reloadFailure certStoreFailure dhParamFailure
       pushResult sleepDelay certStoreCall dhParamCall
       fileWrite dryRun rendered reloadRun tempCreated somaxconnRead ipv6Read failure
       isLockOp isMetric isCertStore isDHParam isSendEvent isSleep isPush isRender
       isDryRun isWriteFile isReload isUpdateCall keepsOrchestrator keepsFiles
       touchesProxy notTLSStore notUpdateCall noLiveWriteNoReload beforePush] in *.

Lemma dh_param_store_calls (E : Env) (n : NGINXConfigurer) (cfg old : TemplateConfig)
    (w : World) :
  templateConfig w = Some old ->
  config.GeneratedTime old < config.GeneratedTime cfg ->
  triple E (fullReconfiguration n cfg) w (fun _ evs _ =>
    observe dhParamCall evs =
    match observe certStoreFailure evs with
    | [] => expectedDHParams cfg
    | _ :: _ => []
    end).
Proof.
  intros Hold Hgen. unfold fullReconfiguration, expectedDHParams.
  do 4 step. rewrite Hold.
  replace (config.GeneratedTime old >=? config.GeneratedTime cfg) with false
    by (symmetry; rewrite Z.geb_leb; apply Z.leb_gt; lia).
  step_to_reload.
  all: repeat match goal with
              | H : negb (String.eqb ?x ?y) = _ |- _ =>
                  destruct (String.eqb x y); cbn [negb] in H; try discriminate H; clear H
              end.
  all: try reflexivity.
  all: summary notTLSStore; repeat step; rewrite ?observe_app; no_obs; reflexivity.
Qed.

(** X12.  On a reconciliation that passes the staleness check and whose
    certificate store did not fail, the DH parameters are written exactly
    when the snapshot names a DH parameter file and carries DH parameter
    content, once, with that file and that content; after a failed
    certificate store they are not written. *)
Theorem dh_parameters_stored_when_present (E : Env) (n : NGINXConfigurer)
    (cfg old : TemplateConfig) (w : World) :
  templateConfig w = Some old ->
  config.GeneratedTime old < config.GeneratedTime cfg ->
  let r := run E (fullReconfiguration n cfg) w in
  (observe certStoreFailure (emitted w (snd r)) = [] ->
   observe dhParamCall (emitted w (snd r)) = expectedDHParams cfg) /\
  (observe certStoreFailure (emitted w (snd r)) <> [] ->
   observe dhParamCall (emitted w (snd r)) = []) /\
  (expectedDHParams cfg <> [] <->
   config.DHParamFile cfg <> "" /\ config.DHParamContent cfg <> None).
Proof.
  intros Hold Hgen. cbv zeta.
  pose proof (dh_param_store_calls E n cfg old w Hold Hgen) as H. unfold triple in H.
  rewrite H. split; [intros ->; reflexivity |]. split.
  - destruct (observe certStoreFailure _); [intros Hne; contradiction | reflexivity].
  - unfold expectedDHParams.
    destruct (config.DHParamContent cfg) as [content |].
    + destruct (String.eqb_spec (config.DHParamFile cfg) "") as [Heq | Hne].
      * split; [intros Hc; contradiction | intros [Hc _]; contradiction].
      * split; [intros _; split; [exact Hne | discriminate] | discriminate].
    + split; [intros Hc; contradiction | intros [_ Hc]; contradiction].
Qed.

(** The routing handed to the dynamic push and the lists handed to
    [RemoveMetrics]. *)
Definition pushCall (e : Event) : option (Configuration * Configuration * option error) :=
  match e with
  | Ev (ConfigureDynamically newcfg oldcfg) r => Some (newcfg, oldcfg, r)
  | _ => None
  end.

Definition metricsRemoved (e : Event) : option (list string * list string * list string) :=
  match e with
  | Ev (RemoveMetrics ri re rc) _ => Some (ri, re, rc)
  | _ => None
  end.

Ltac world_simpl ::=
  cbn [handle answer effect observable record set_files set_locked set_templateConfig
       fst snd trace files templateConfig locked ev_call ev_result
       app map forallb existsb In negb andb orb length
       observe validationError reloadFailure certStoreFailure dhParamFailure
       pushResult sleepDelay certStoreCall dhParamCall pushCall metricsRemoved
       fileWrite dryRun rendered reloadRun tempCreated somaxconnRead ipv6Read failure
       isLockOp isMetric isCertStore isDHParam isSendEvent isSleep isPush isRender
       isDryRun isWriteFile isReload isUpdateCall keepsOrchestrator keepsFiles
       touchesProxy notTLSStore notUpdateCall noLiveWriteNoReload beforePush] in *.

Lemma observe_loopEvents_call (newcfg oldcfg : Configuration) (factor jitter duration : Q)
    (answers : list (option error)) :
  observe pushCall (loopEvents newcfg oldcfg factor jitter duration answers) =
  map (fun a => (newcfg, oldcfg, a)) answers.
Proof.
  revert duration. induction answers as [| a rest IH]; intros duration; [reflexivity |].
  cbn [loopEvents observe pushCall map]. f_equal.
  destruct rest as [| b rest]; [reflexivity |].
  cbn [observe sleepOf pushCall]. apply IH.
Qed.

Lemma observe_loopEvents_other {X : Type} (obs : Event -> option X)
    (newcfg oldcfg : Configuration) (factor jitter duration : Q)
    (answers : list (option error)) :
  (forall e, isPush (ev_call e) || isSleep (ev_call e) = true -> obs e = None) ->
  observe obs (loopEvents newcfg oldcfg factor jitter duration answers) = [].
Proof.
  intros Hobs.
  apply (observe_none obs (fun c => isPush c || isSleep c)); [exact Hobs |].
  apply loopEvents_kinds.
Qed.

(** The routing of the new snapshot, stamped with its hash. *)
Definition stamped (newcfg : Configuration) : Configuration :=
  ingress.set_ConfigurationChecksum (pretty (Hash newcfg)) newcfg.

(** The routing a call pushes: stamped when the reload command ran. *)
Definition pushedRouting (cfg : TemplateConfig) (evs : list Event) : Configuration :=
  match observe reloadRun evs with
  | [] => configFromTemplate (Some cfg)
  | _ :: _ => stamped (configFromTemplate (Some cfg))
  end.

Lemma push_phase_arguments (E : Env) (n : NGINXConfigurer) (cfg : TemplateConfig)
    (w : World) :
  triple E (fullReconfiguration n cfg) w (fun o evs w' =>
    (forall nc oc res, In (nc, oc, res) (observe pushCall evs) ->
       nc = pushedRouting cfg evs /\ oc = configFromTemplate (templateConfig w)) /\
    (forall ri re rc, In (ri, re, rc) (observe metricsRemoved evs) ->
       ri = GetRemovedIngresses (configFromTemplate (templateConfig w)) (pushedRouting cfg evs) /\
       re = GetRemovedHosts (configFromTemplate (templateConfig w)) (pushedRouting cfg evs) /\
       rc = GetRemovedCertificateSerialNumbers (configFromTemplate (templateConfig w))
              (pushedRouting cfg evs)) /\
    (forall d, In (d, 0%Q) (observe sleepDelay evs) ->
       d = 1%Q /\ Equal (configFromTemplate (templateConfig w)) ingress.empty = true) /\
    (observe pushCall evs <> [] ->
     Equal (configFromTemplate (templateConfig w)) ingress.empty = true ->
     exists rest, observe sleepDelay evs = (1, 0)%Q :: rest)).
Proof.
  unfold fullReconfiguration. step_to_reload.
  all: try solve [repeat split; intros; first [contradiction | congruence]].
  all: step.
  all: first
    [ do 2 step;
      eapply triple_conseq;
        [apply triple_and;
           [apply updateConfiguration_summary | apply reload_after_validated_write] |];
      cbv beta; intros [cfg' [e |]] evs_u w_u ((_ & Hk & Htc & Hlk) & (_ & Hrel));
      cbn [fst snd] in Hrel; [repeat step | do 4 step]
    | prog_simpl ].
  (* updateConfiguration failed: no push follows *)
  all: try solve [repeat split; intros; rewrite ?observe_app in *; no_obs; world_simpl;
                  rewrite ?app_nil_r in *; first [contradiction | congruence]].
  (* the initial sync, then the loop *)
  all: step; [step |]; step.
  all: eapply triple_conseq; [apply ExponentialBackoff_retry |];
    cbv beta; intros [err rr] evs_l w_l ((answers & -> & Hout) & Htc' & Hlk' & Hf');
    cbn [fst] in *; destruct err as [e |]; repeat step.
  all: try (destruct Hrel as [Hrel _]; destruct (Hrel eq_refl) as [o_r Hin_r]).
  all: unfold pushedRouting.
  all: repeat progress
         (rewrite ?observe_app; no_obs; world_simpl;
          rewrite ?observe_loopEvents_call, ?observe_loopEvents_sleep;
          rewrite ?(observe_loopEvents_other reloadRun) by event_kinds;
          rewrite ?(observe_loopEvents_other metricsRemoved) by event_kinds;
          rewrite ?app_nil_r).
  all: try (destruct (observe reloadRun evs_u) as [| x l]; [contradiction |]).
  all: unfold stamped; cbn [retry Jitter Factor Duration];
    change (if Qle_bool (1 # 10) 0 then 0%Q else (1 # 10)%Q) with (1 # 10)%Q.
  all: split;
    [intros nc oc res Hin; apply in_map_iff in Hin as (a & Ha & _);
     injection Ha as <- <- _; split; reflexivity |].
  all: split;
    [intros ri re rc Hin;
     first [contradiction
           | destruct Hin as [Hin | []]; injection Hin as <- <- <-; repeat split] |].
  all: split;
    [ intros d Hin;
      repeat match type of Hin with
             | _ \/ _ => destruct Hin as [Hin | Hin]
             | (_, _) = (_, _) => injection Hin as <-; split; reflexivity
             | In _ (map _ _) => apply in_map_iff in Hin as (d0 & Hd & _); discriminate Hd
             | False => contradiction
             end
    | intros Hne Heq; first [discriminate Heq | eexists; reflexivity] ].
Qed.

(** X9.  Every dynamic push of a call carries the same two routings: the
    routing of the new snapshot, stamped with its hash exactly when the
    reload command ran in this call, and the routing of the last applied
    snapshot; and [RemoveMetrics] is handed what the three [GetRemoved]
    helpers compute from these two. *)
Theorem pushes_carry_new_and_last_applied_routing (E : Env) (n : NGINXConfigurer)
    (cfg : TemplateConfig) (w : World) :
  let r := run E (fullReconfiguration n cfg) w in
  let evs := emitted w (snd r) in
  let oldcfg := configFromTemplate (templateConfig w) in
  let newcfg := pushedRouting cfg evs in
  (forall nc oc res, In (nc, oc, res) (observe pushCall evs) -> nc = newcfg /\ oc = oldcfg) /\
  (forall ri re rc, In (ri, re, rc) (observe metricsRemoved evs) ->
     ri = GetRemovedIngresses oldcfg newcfg /\
     re = GetRemovedHosts oldcfg newcfg /\
     rc = GetRemovedCertificateSerialNumbers oldcfg newcfg).
Proof.
  cbv zeta. destruct (push_phase_arguments E n cfg w) as (Hpush & Hmetrics & _).
  split; assumption.
Qed.

(** X10.  A sleep without jitter is the one second sleep of the initial
    sync: it happens only when the routing of the last applied snapshot
    equals the empty configuration; and on such a call, once a push is
    made, that sleep is the first sleep of the call. *)
Theorem initial_sync_sleeps_one_second (E : Env) (n : NGINXConfigurer)
    (cfg : TemplateConfig) (w : World) :
  let r := run E (fullReconfiguration n cfg) w in
  let evs := emitted w (snd r) in
  let oldcfg := configFromTemplate (templateConfig w) in
  (forall d, In (d, 0%Q) (observe sleepDelay evs) ->
     d = 1%Q /\ Equal oldcfg ingress.empty = true) /\
  (observe pushCall evs <> [] -> Equal oldcfg ingress.empty = true ->
   exists rest, observe sleepDelay evs = (1, 0)%Q :: rest).
Proof.
  cbv zeta. destruct (push_phase_arguments E n cfg w) as (_ & _ & Hsleep & Hfirst).
  split; assumption.
Qed.

(** The bookkeeping of a reload. *)
Definition configSuccess (e : Event) : option (Z * bool) :=
  match e with
  | Ev (ConfigSuccess hash success) _ => Some (hash, success)
  | _ => None
  end.

(** [true] for [IncReloadCount], [false] for [IncReloadErrorCount]. *)
Definition reloadCounted (e : Event) : option bool :=
  match e with
  | Ev IncReloadCount _ => Some true
  | Ev IncReloadErrorCount _ => Some false
  | _ => None
  end.

Definition sentEvent (e : Event) : option EventMessage :=
  match e with
  | Ev (SendEvent m) _ => Some m
  | _ => None
  end.

Ltac world_simpl ::=
  cbn [handle answer effect observable record set_files set_locked set_templateConfig
       fst snd trace files templateConfig locked ev_call ev_result
       app map forallb existsb In negb andb orb length
       observe validationError reloadFailure certStoreFailure dhParamFailure
       pushResult sleepDelay certStoreCall dhParamCall pushCall metricsRemoved
       configSuccess reloadCounted sentEvent
       fileWrite dryRun rendered reloadRun tempCreated somaxconnRead ipv6Read failure
       isLockOp isMetric isCertStore isDHParam isSendEvent isSleep isPush isRender
       isDryRun isWriteFile isReload isUpdateCall keepsOrchestrator keepsFiles
       touchesProxy notTLSStore notUpdateCall noLiveWriteNoReload beforePush] in *.

(** How [updateConfiguration] ends, for its caller. *)
Lemma updateConfiguration_ends (E : Env) (n : NGINXConfigurer) (cfg : TemplateConfig)
    (w : World) :
  triple E (updateConfiguration n cfg) w (fun r evs w' =>
    (forallb (fun e => isUpdateCall (ev_call e)) evs = true /\
     templateConfig w' = templateConfig w /\ locked w' = locked w) /\
    ((snd r = None /\ observe failure evs = [] /\
      exists o, observe reloadRun evs = [(o, None)]) \/
     (exists e err,
        snd r = Some err /\ observe failure evs = [e] /\
        (err = e \/ exists o, err = e +:+ newline +:+ o)))).
Proof.
  eapply triple_conseq;
    [apply triple_and;
       [apply updateConfiguration_summary
       | apply triple_and;
           [apply updateConfiguration_fail_fast | apply reload_after_validated_write]] |].
  cbv beta. intros r evs w' ((_ & Hk) & Hff & Hone & Hiff). split; [exact Hk |].
  destruct Hff as [(Hnone & Hfail) | (e & Hfail & Hret)].
  - left. split; [exact Hnone |]. split; [exact Hfail |].
    destruct (proj1 Hiff Hnone) as [o Hin]. exists o. apply (Hone _ Hin).
  - right. destruct Hret as [(Hr & _) | (o & _ & Hr)].
    + exists e, e. auto.
    + exists e, (e +:+ newline +:+ o). split; [exact Hr |]. split; [exact Hfail |]. eauto.
Qed.

Lemma reload_bookkeeping (E : Env) (n : NGINXConfigurer) (cfg : TemplateConfig)
    (w : World) :
  triple E (fullReconfiguration n cfg) w (fun o evs w' =>
    (observe failure evs = [] /\ observe reloadRun evs = [] /\
     observe configSuccess evs = [] /\ observe reloadCounted evs = []) \/
    (observe failure evs = [] /\ (exists out, observe reloadRun evs = [(out, None)]) /\
     observe configSuccess evs = [(Hash (configFromTemplate (Some cfg)), true)] /\
     observe reloadCounted evs = [true] /\
     In reloadMessage (observe sentEvent evs)) \/
    (exists e err,
       observe failure evs = [e] /\ (err = e \/ exists out, err = e +:+ newline +:+ out) /\
       observe configSuccess evs = [(Hash (configFromTemplate (Some cfg)), false)] /\
       observe reloadCounted evs = [false] /\
       observe sentEvent evs = [reloadErrorMessage err] /\
       observe pushResult evs = [] /\
       templateConfig w' = templateConfig w /\ o = Returned)).
Proof.
  unfold fullReconfiguration. step_to_reload.
  all: try solve [left; repeat split; reflexivity].
  all: step.
  all: first
    [ do 2 step;
      eapply triple_conseq; [apply updateConfiguration_ends |];
      cbv beta;
      intros [cfg' r_u] evs_u w_u
        ((Hk & Htc & Hlk) & [(Hnone & Hfail & o_r & Hrun) | (e_u & err_u & Herr & Hfail & Hform)]);
      cbn [fst snd] in *; subst r_u; [do 4 step | repeat step]
    | prog_simpl ].
  (* updateConfiguration failed *)
  all: try solve
    [ right; right; exists e_u, err_u;
      repeat progress (rewrite ?observe_app; no_obs; world_simpl; rewrite ?app_nil_r);
      rewrite ?Hfail; repeat split; first [assumption | reflexivity | congruence] ].
  (* the initial sync, then the loop *)
  all: step; [step |]; step.
  all: eapply triple_conseq; [apply ExponentialBackoff_retry |];
    cbv beta; intros [err rr] evs_l w_l ((answers & -> & Hout) & Htc' & Hlk' & Hf');
    cbn [fst] in *; destruct err as [e |]; repeat step.
  all: repeat progress
         (rewrite ?observe_app; no_obs; world_simpl;
          rewrite ?(observe_loopEvents_other failure) by event_kinds;
          rewrite ?(observe_loopEvents_other reloadRun) by event_kinds;
          rewrite ?(observe_loopEvents_other configSuccess) by event_kinds;
          rewrite ?(observe_loopEvents_other reloadCounted) by event_kinds;
          rewrite ?(observe_loopEvents_other sentEvent) by event_kinds;
          rewrite ?app_nil_r).
  all: first
    [ left; repeat split; reflexivity
    | right; left; rewrite Hfail, Hrun; cbn [app];
      split; [reflexivity |]; split; [exists o_r; reflexivity |];
      split; [reflexivity |]; split; [reflexivity |]; here ].
Qed.

(** X13.  A call books the outcome of its reload once.  When
    [updateConfiguration] is not reached or not needed, nothing is
    booked.  When it succeeds, the reload command ran once and succeeded,
    and the call reports [ConfigSuccess] with the hash of the new routing
    and [true], increments the reload counter and sends the Normal RELOAD
    event.  When any collaborator of [updateConfiguration] fails, the call
    reports [ConfigSuccess] with that hash and [false], increments the
    reload error counter, sends one event, the Warning RELOAD event with
    the error (followed by a line feed and the command output when the
    reload command failed), makes no dynamic push, leaves the last applied
    snapshot as it was and returns. *)
Theorem reload_outcome_is_booked_once (E : Env) (n : NGINXConfigurer)
    (cfg : TemplateConfig) (w : World) :
  let r := run E (fullReconfiguration n cfg) w in
  let evs := emitted w (snd r) in
  let hash := Hash (configFromTemplate (Some cfg)) in
  (observe failure evs = [] /\ observe reloadRun evs = [] /\
   observe configSuccess evs = [] /\ observe reloadCounted evs = []) \/
  (observe failure evs = [] /\ (exists out, observe reloadRun evs = [(out, None)]) /\
   observe configSuccess evs = [(hash, true)] /\
   observe reloadCounted evs = [true] /\
   In reloadMessage (observe sentEvent evs)) \/
  (exists e err,
     observe failure evs = [e] /\ (err = e \/ exists out, err = e +:+ newline +:+ out) /\
     observe configSuccess evs = [(hash, false)] /\
     observe reloadCounted evs = [false] /\
     observe sentEvent evs = [reloadErrorMessage err] /\
     observe pushResult evs = [] /\
     templateConfig (snd r) = templateConfig w /\ fst r = Returned).
Proof. exact (reload_bookkeeping E n cfg w). Qed.

End Dataplane.

(** * Concrete runs

    Backends, servers and stream services are named by strings; the dynamic
    update is enough when the servers are the same in number, and two
    configurations are equal when they have as many servers and backends. *)

Definition Routing : Type := ingress.Configuration string string string.
Definition Snapshot : Type := config.TemplateConfig string string string.

Definition sameServerCount (a b : Routing) : bool :=
  Nat.eqb (length (ingress.Servers a)) (length (ingress.Servers b)).

Definition backendCount (c : Routing) : Z := Z.of_nat (length (ingress.Backends c)).

Definition sameSize (a b : Routing) : bool :=
  sameServerCount a b &&
  Nat.eqb (length (ingress.Backends a)) (length (ingress.Backends b)).

Definition noneRemoved (a b : Routing) : list string := [].

Definition livePath : string := "/etc/nginx/nginx.conf".

Definition reconcile (n : NGINXConfigurer) (cfg : Snapshot) : Prog Outcome :=
  fullReconfiguration sameServerCount backendCount sameSize
    noneRemoved noneRemoved noneRemoved livePath n cfg.

Definition orchestrator : NGINXConfigurer :=
  {| resolver := ["10.0.0.10"]; DynamicConfigurationRetries := 2 |}.

Definition freshCert : ingress.SSLCert :=
  {| ingress.Name := ""; ingress.PemCertKey := "-----BEGIN CERTIFICATE-----";
     ingress.PemSHA := "5f2b" |}.

(** The snapshot that is in force. *)
Definition applied : Snapshot :=
  {| config.DefaultSSLCertificate := None; config.BacklogSize := 511;
     config.Backends := ["web"]; config.Servers := ["example.com"];
     config.TCPBackends := []; config.UDPBackends := [];
     config.Cfg := {| config.Checksum := "v1"; config.SSLDHParam := "";
                      config.Resolver := []; config.DisableIpv6DNS := false |};
     config.GeneratedTime := 5; config.DHParamFile := "";
     config.DHParamContent := None |}.

(** A newer snapshot whose source checksum changed: a reload is required. *)
Definition reloading : Snapshot :=
  {| config.DefaultSSLCertificate := None; config.BacklogSize := 0;
     config.Backends := ["web"]; config.Servers := ["example.com"];
     config.TCPBackends := []; config.UDPBackends := [];
     config.Cfg := {| config.Checksum := "v2"; config.SSLDHParam := "";
                      config.Resolver := []; config.DisableIpv6DNS := false |};
     config.GeneratedTime := 6; config.DHParamFile := "";
     config.DHParamContent := None |}.

(** A newer snapshot with the same source checksum and the same servers,
    one more backend and a default certificate. *)
Definition rebalanced : Snapshot :=
  {| config.DefaultSSLCertificate := Some freshCert; config.BacklogSize := 0;
     config.Backends := ["web"; "api"]; config.Servers := ["example.com"];
     config.TCPBackends := []; config.UDPBackends := [];
     config.Cfg := {| config.Checksum := "v1"; config.SSLDHParam := "";
                      config.Resolver := []; config.DisableIpv6DNS := false |};
     config.GeneratedTime := 6; config.DHParamFile := "";
     config.DHParamContent := None |}.

(** The same content, generated no later than the snapshot in force. *)
Definition outdated : Snapshot :=
  {| config.DefaultSSLCertificate := Some freshCert; config.BacklogSize := 0;
     config.Backends := ["web"; "api"]; config.Servers := ["example.com"];
     config.TCPBackends := []; config.UDPBackends := [];
     config.Cfg := {| config.Checksum := "v1"; config.SSLDHParam := "";
                      config.Resolver := []; config.DisableIpv6DNS := false |};
     config.GeneratedTime := 5; config.DHParamFile := "";
     config.DHParamContent := None |}.

(** The orchestrator at rest: the lock free, nothing traced yet. *)
Definition atRest (tc : option Snapshot) : World :=
  {| templateConfig := tc; files := {[ livePath := "events {}" ]};
     locked := false; trace := [] |}.

(** Collaborators that all succeed. *)
Definition healthy : Env (Backend := string) (Server := string) (L4Service := string) :=
  fun _ c =>
    match c as c0 return result c0 with
    | LoadTemplateConfig => None
    | StoreSSLCertOnDisk _ _ | AddOrUpdateDHParam _ _ | ConfigureDynamically _ _
    | createOpentracingCfg _ | testTemplate _ | WriteFile _ _ _ => None
    | SysctlSomaxconn => 511
    | IsIPv6Enabled | KlogV2Enabled => true
    | TemplateWrite _ => inl "events {} http {}"
    | CreateTemp _ _ => inl "/tmp/new-nginx-cfg1"
    | ReadFile _ | DiffCommand _ _ => ""
    | ExecReload => ("", None)
    | _ => tt
    end.

Definition rejection : error := "nginx: [emerg] unexpected end of file".

(** The dry run rejects the rendered artifact. *)
Definition rejecting : Env (Backend := string) (Server := string) (L4Service := string) :=
  fun h c =>
    match c as c0 return result c0 with
    | testTemplate _ => Some rejection
    | c0 => healthy h c0
    end.

(** The reload command fails. *)
Definition reloadFailing : Env (Backend := string) (Server := string) (L4Service := string) :=
  fun h c =>
    match c as c0 return result c0 with
    | ExecReload => ("nginx: [error] invalid PID number", Some "exit status 1")
    | c0 => healthy h c0
    end.

(** The certificate store fails. *)
Definition storeFailing : Env (Backend := string) (Server := string) (L4Service := string) :=
  fun h c =>
    match c as c0 return result c0 with
    | StoreSSLCertOnDisk _ _ => Some "no space left on device"
    | c0 => healthy h c0
    end.

(** The control surface of the proxy refuses every push. *)
Definition pushFailing : Env (Backend := string) (Server := string) (L4Service := string) :=
  fun h c =>
    match c as c0 return result c0 with
    | ConfigureDynamically _ _ => Some "connection refused"
    | c0 => healthy h c0
    end.

(** The control surface refuses the first two pushes and accepts the third. *)
Definition pushFlaky : Env (Backend := string) (Server := string) (L4Service := string) :=
  fun h c =>
    match c as c0 return result c0 with
    | ConfigureDynamically _ _ =>
        if (length (observe pushResult h) <? 2)%nat then Some "connection refused" else None
    | c0 => healthy h c0
    end.

(** ** The claims on these runs *)

(** A reconciliation whose rendered artifact fails the dry run. *)
Lemma validation_failure_run :
  snd (fst (run rejecting (updateConfiguration livePath orchestrator reloading)
              (atRest (Some applied)))) = Some rejection /\
  files (snd (run rejecting (reconcile orchestrator reloading) (atRest (Some applied))))
    !! livePath = Some "events {}".
Proof.
  destruct (validation_failure_leaves_live_artifact sameServerCount backendCount sameSize noneRemoved noneRemoved noneRemoved livePath
              rejecting orchestrator reloading (atRest (Some applied)) rejection)
    as [Hupdate Hfull].
  cbv zeta in Hupdate, Hfull. split.
  - destruct Hupdate as (Herr & _); [vm_compute; auto | exact Herr].
  - destruct Hfull as (_ & Hlive & _); [vm_compute; auto |].
    unfold reconcile. rewrite Hlive. reflexivity.
Defined.

(** A snapshot generated no later than the one in force. *)
Lemma stale_snapshot_run :
  emitted (atRest (Some applied))
    (snd (run healthy (reconcile orchestrator outdated) (atRest (Some applied)))) =
  rejectedCall outdated /\
  templateConfig (snd (run healthy (reconcile orchestrator outdated) (atRest (Some applied)))) =
  Some applied.
Proof.
  destruct (stale_snapshot_only_updates_ssl_metrics sameServerCount backendCount sameSize noneRemoved noneRemoved noneRemoved livePath
              healthy orchestrator outdated applied (atRest (Some applied)) eq_refl)
    as (_ & Hevs & Htc & _).
  - cbn. lia.
  - split; [exact Hevs | exact Htc].
Defined.

(** The stale call reaches the metric collector, against C2 as stated. *)
Lemma stale_snapshot_calls_metrics :
  In (Ev (SetSSLExpireTime ["example.com"]) tt)
     (emitted (atRest (Some applied))
        (snd (run healthy (reconcile orchestrator outdated) (atRest (Some applied))))) /\
  ~ stale_call_is_silent sameServerCount backendCount sameSize noneRemoved noneRemoved noneRemoved livePath healthy orchestrator outdated applied (atRest (Some applied)).
Proof.
  split; [vm_compute; auto |].
  intros H. specialize (H eq_refl). cbv zeta in H.
  destruct H as (_ & _ & H); [cbn; lia |].
  vm_compute in H. discriminate H.
Defined.

(** A reconciliation whose three pushes are all refused. *)
Lemma failed_push_run :
  fst (run pushFailing (reconcile orchestrator rebalanced) (atRest (Some applied))) = Returned /\
  templateConfig (snd (run pushFailing (reconcile orchestrator rebalanced)
                         (atRest (Some applied)))) = Some applied.
Proof.
  destruct (push_failure_keeps_previous_last_applied sameServerCount backendCount sameSize noneRemoved noneRemoved noneRemoved livePath
              pushFailing orchestrator rebalanced (atRest (Some applied)) "connection refused")
    as (Hret & Htc & _).
  - vm_compute. reflexivity.
  - split; [exact Hret | exact Htc].
Defined.

(** After the refused pushes the snapshot in force is still the previous
    one, against C3 as stated. *)
Lemma failed_push_not_recorded :
  last (observe pushResult
          (emitted (atRest (Some applied))
             (snd (run pushFailing (reconcile orchestrator rebalanced)
                     (atRest (Some applied)))))) = Some (Some "connection refused") /\
  ~ failed_push_still_recorded sameServerCount backendCount sameSize noneRemoved noneRemoved noneRemoved livePath pushFailing orchestrator rebalanced (atRest (Some applied)).
Proof.
  split; [vm_compute; reflexivity |].
  intros H. cbv zeta in H.
  destruct (H "connection refused") as (cfg' & Htc & Hsame); [vm_compute; reflexivity |].
  vm_compute in Htc. injection Htc as <-.
  destruct Hsame as [Heq | (somaxconn & ipv6 & Heq)];
    apply (f_equal config.GeneratedTime) in Heq; vm_compute in Heq; discriminate Heq.
Defined.

(** A reconciliation with the source checksum unchanged and the same
    servers. *)
Lemma unchanged_source_run :
  forallb (fun e => notUpdateCall (ev_call e))
    (emitted (atRest (Some applied))
       (snd (run healthy (reconcile orchestrator rebalanced) (atRest (Some applied))))) = true /\
  files (snd (run healthy (reconcile orchestrator rebalanced) (atRest (Some applied)))) =
  files (atRest (Some applied)).
Proof.
  apply (unchanged_source_skips_artifact_and_reload sameServerCount backendCount sameSize noneRemoved noneRemoved noneRemoved livePath
           healthy orchestrator rebalanced applied (atRest (Some applied)));
    reflexivity.
Defined.

(** That reconciliation stores the certificate and pushes to the proxy,
    against C4 as stated. *)
Lemma unchanged_source_still_writes_and_pushes :
  (In (Ev (StoreSSLCertOnDisk FakeCertificateName freshCert) None)
      (emitted (atRest (Some applied))
         (snd (run healthy (reconcile orchestrator rebalanced) (atRest (Some applied))))) /\
   observe pushResult
     (emitted (atRest (Some applied))
        (snd (run healthy (reconcile orchestrator rebalanced) (atRest (Some applied))))) =
   [None]) /\
  ~ unchanged_source_is_noop sameServerCount backendCount sameSize noneRemoved noneRemoved noneRemoved livePath healthy orchestrator rebalanced applied (atRest (Some applied)).
Proof.
  split; [split; vm_compute; auto |].
  intros H. specialize (H eq_refl eq_refl eq_refl). vm_compute in H. discriminate H.
Defined.

(** A reconciliation whose certificate cannot be stored. *)
Lemma store_failure_run :
  fst (run storeFailing (reconcile orchestrator rebalanced) (atRest (Some applied))) = Returned /\
  forallb (fun e => negb (touchesProxy (ev_call e)))
    (emitted (atRest (Some applied))
       (snd (run storeFailing (reconcile orchestrator rebalanced) (atRest (Some applied))))) = true.
Proof.
  destruct (tls_store_failure_leaves_proxy_untouched sameServerCount backendCount sameSize noneRemoved noneRemoved noneRemoved livePath
              storeFailing orchestrator rebalanced (atRest (Some applied)))
    as (Hret & Hquiet & _).
  - left. vm_compute. discriminate.
  - split; [exact Hret | exact Hquiet].
Defined.

(** Two refused pushes and an accepted one, with two retries configured. *)
Lemma flaky_push_run :
  Z.of_nat (length (observe pushResult
                      (emitted (atRest (Some applied))
                         (snd (run pushFlaky (reconcile orchestrator rebalanced)
                                 (atRest (Some applied))))))) <= Z.max 0 (2 + 1) /\
  observe pushResult
    (emitted (atRest (Some applied))
       (snd (run pushFlaky (reconcile orchestrator rebalanced) (atRest (Some applied))))) =
  [Some "connection refused"; Some "connection refused"; None] /\
  observe sleepDelay
    (emitted (atRest (Some applied))
       (snd (run pushFlaky (reconcile orchestrator rebalanced) (atRest (Some applied))))) =
  [(1, 1 # 10); (13 # 10, 1 # 10)]%Q.
Proof.
  destruct (dynamic_push_bounded_with_backoff sameServerCount backendCount sameSize noneRemoved noneRemoved noneRemoved livePath
              pushFlaky orchestrator rebalanced (atRest (Some applied)))
    as (Hbound & _).
  - unfold in_int_range. cbn. lia.
  - split; [exact Hbound | split; vm_compute; reflexivity].
Defined.

(** A newer snapshot that brings a default certificate. *)
Lemma new_certificate_run :
  observe certStoreCall
    (emitted (atRest (Some applied))
       (snd (run healthy (reconcile orchestrator rebalanced) (atRest (Some applied))))) =
  [(FakeCertificateName, freshCert)].
Proof.
  destruct (default_certificate_stored_iff_changed sameServerCount backendCount sameSize noneRemoved noneRemoved noneRemoved livePath
              healthy orchestrator rebalanced applied (atRest (Some applied)) eq_refl)
    as (Hstores & _).
  - cbn. lia.
  - unfold reconcile. rewrite Hstores. reflexivity.
Defined.

(** A stale snapshot that brings a default certificate where none is
    stored: the certificate store is not called, against C7 as stated. *)
Lemma stale_certificate_not_stored :
  observe certStoreCall
    (emitted (atRest (Some applied))
       (snd (run healthy (reconcile orchestrator outdated) (atRest (Some applied))))) = [] /\
  ~ store_iff_changed sameServerCount backendCount sameSize noneRemoved noneRemoved noneRemoved livePath healthy orchestrator outdated applied (atRest (Some applied)).
Proof.
  split; [vm_compute; reflexivity |].
  intros H. specialize (H eq_refl). cbv zeta in H.
  refine (proj2 H _ _); [| vm_compute; reflexivity].
  exists freshCert. split; [reflexivity | left; reflexivity].
Defined.

(** A reconciliation whose reload command fails. *)
Lemma reload_failure_run :
  snd (fst (run reloadFailing (updateConfiguration livePath orchestrator reloading)
              (atRest (Some applied)))) =
  Some ("exit status 1" +:+ newline +:+ "nginx: [error] invalid PID number") /\
  templateConfig (snd (run reloadFailing (reconcile orchestrator reloading)
                         (atRest (Some applied)))) = Some applied.
Proof.
  destruct (reload_failure_is_reported sameServerCount backendCount sameSize noneRemoved noneRemoved noneRemoved livePath
              reloadFailing orchestrator reloading (atRest (Some applied))
              "nginx: [error] invalid PID number" "exit status 1")
    as [Hupdate Hfull].
  cbv zeta in Hupdate, Hfull. split.
  - destruct Hupdate as (Herr & _); [vm_compute; auto | exact Herr].
  - destruct Hfull as (_ & _ & _ & Htc & _); [vm_compute; auto | exact Htc].
Defined.


(** A first call, with no snapshot stored yet. *)
Lemma nil_last_applied_run :
  fst (run healthy (reconcile orchestrator rebalanced) (atRest None)) = Panicked /\
  emitted (atRest None) (snd (run healthy (reconcile orchestrator rebalanced) (atRest None))) =
  rejectedCall rebalanced.
Proof.
  destruct (nil_last_applied_faults_after_ssl_metrics sameServerCount backendCount sameSize noneRemoved noneRemoved noneRemoved livePath
              healthy orchestrator rebalanced (atRest None) eq_refl)
    as (Hpanic & Hevs & _).
  split; [exact Hpanic | exact Hevs].
Defined.

(** That call reaches the metric collector before it faults, against C10
    as stated. *)
Lemma nil_fault_follows_ssl_metrics :
  (templateConfig (atRest None) = None /\
   In (Ev (SetSSLExpireTime ["example.com"]) tt)
      (emitted (atRest None)
         (snd (run healthy (reconcile orchestrator rebalanced) (atRest None))))) /\
  ~ nil_fault_before_anything sameServerCount backendCount sameSize noneRemoved noneRemoved noneRemoved livePath healthy orchestrator rebalanced (atRest None).
Proof.
  split; [split; [reflexivity | vm_compute; auto] |].
  intros H. specialize (H eq_refl). cbv zeta in H.
  destruct H as [_ H]. vm_compute in H. discriminate H.
Defined.

(** * Regular expressions

    [regexp.MustCompile] and [Regexp.MatchString] of Go's library, for
    patterns anchored with [^] and [$] on both sides: the whole string has
    to match.  Strings are strings of bytes, a class is a set of bytes. *)
Module regexp.
Import Stdlib.Strings.Ascii.

Inductive Regexp : Type :=
| Nothing
| Epsilon
| Class (p : ascii -> bool)
| Cat (r1 r2 : Regexp)
| Alt (r1 r2 : Regexp)
| Star (r : Regexp).

(** [r?], [r+], one byte and a literal string. *)
Definition Opt (r : Regexp) : Regexp := Alt Epsilon r.
Definition Plus (r : Regexp) : Regexp := Cat r (Star r).
Definition Chr (c : ascii) : Regexp := Class (Ascii.eqb c).

Fixpoint Lit (s : string) : Regexp :=
  match s with
  | EmptyString => Epsilon
  | String c rest => Cat (Chr c) (Lit rest)
  end.

Fixpoint nullable (r : Regexp) : bool :=
  match r with
  | Nothing => false
  | Epsilon => true
  | Class _ => false
  | Cat r1 r2 => nullable r1 && nullable r2
  | Alt r1 r2 => nullable r1 || nullable r2
  | Star _ => true
  end.

(** What is left of [r] after the byte [c]. *)
Fixpoint deriv (c : ascii) (r : Regexp) : Regexp :=
  match r with
  | Nothing => Nothing
  | Epsilon => Nothing
  | Class p => if p c then Epsilon else Nothing
  | Cat r1 r2 =>
      if nullable r1 then Alt (Cat (deriv c r1) r2) (deriv c r2)
      else Cat (deriv c r1) r2
  | Alt r1 r2 => Alt (deriv c r1) (deriv c r2)
  | Star r1 => Cat (deriv c r1) (Star r1)
  end.

Fixpoint MatchString (r : Regexp) (s : string) : bool :=
  match s with
  | EmptyString => nullable r
  | String c rest => MatchString (deriv c r) rest
  end.

(** Every byte of the string is in the set. *)
Fixpoint allBytes (P : ascii -> bool) (s : string) : bool :=
  match s with
  | EmptyString => true
  | String c rest => P c && allBytes P rest
  end.

(** Every class of the expression lies within the set. *)
Fixpoint within (P : ascii -> bool) (r : Regexp) : Prop :=
  match r with
  | Nothing | Epsilon => True
  | Class p => forall c, p c = true -> P c = true
  | Cat r1 r2 | Alt r1 r2 => within P r1 /\ within P r2
  | Star r1 => within P r1
  end.

(** An expression that visibly matches nothing. *)
Fixpoint void (r : Regexp) : bool :=
  match r with
  | Nothing => true
  | Epsilon | Class _ | Star _ => false
  | Cat r1 r2 => void r1 || void r2
  | Alt r1 r2 => void r1 && void r2
  end.

Lemma void_nullable (r : Regexp) : void r = true -> nullable r = false.
Proof.
  induction r as [| | p | r1 IH1 r2 IH2 | r1 IH1 r2 IH2 | r1 IH1]; cbn;
    try discriminate; try reflexivity.
  - intros H. apply orb_true_iff in H as [H | H].
    + rewrite (IH1 H). reflexivity.
    + rewrite (IH2 H). apply andb_false_r.
  - intros H. apply andb_true_iff in H as [H1 H2].
    rewrite (IH1 H1), (IH2 H2). reflexivity.
Qed.

Lemma void_deriv (c : ascii) (r : Regexp) : void r = true -> void (deriv c r) = true.
Proof.
  induction r as [| | p | r1 IH1 r2 IH2 | r1 IH1 r2 IH2 | r1 IH1]; cbn;
    try discriminate; try reflexivity.
  - intros H. apply orb_true_iff in H as [H | H].
    + rewrite (void_nullable r1 H). cbn. rewrite (IH1 H). reflexivity.
    + destruct (nullable r1); cbn; rewrite ?H, ?(IH2 H), ?orb_true_r; reflexivity.
  - intros H. apply andb_true_iff in H as [H1 H2].
    rewrite (IH1 H1), (IH2 H2). reflexivity.
Qed.

Lemma void_MatchString (r : Regexp) (s : string) :
  void r = true -> MatchString r s = false.
Proof.
  revert r. induction s as [| c s IH]; intros r H; cbn.
  - apply void_nullable, H.
  - apply IH, void_deriv, H.
Qed.

Lemma within_deriv (P : ascii -> bool) (c : ascii) (r : Regexp) :
  within P r -> within P (deriv c r).
Proof.
  induction r as [| | p | r1 IH1 r2 IH2 | r1 IH1 r2 IH2 | r1 IH1]; cbn; intros H;
    try exact I.
  - destruct (p c); exact I.
  - destruct H as [H1 H2]. destruct (nullable r1); cbn; auto.
  - destruct H as [H1 H2]. auto.
  - auto.
Qed.

Lemma deriv_outside (P : ascii -> bool) (c : ascii) (r : Regexp) :
  within P r -> P c = false -> void (deriv c r) = true.
Proof.
  intros Hr Hc.
  induction r as [| | p | r1 IH1 r2 IH2 | r1 IH1 r2 IH2 | r1 IH1]; cbn in *;
    try reflexivity.
  - destruct (p c) eqn:Hp; [| reflexivity]. rewrite (Hr c Hp) in Hc. discriminate.
  - destruct Hr as [H1 H2]. destruct (nullable r1); cbn; rewrite (IH1 H1), ?(IH2 H2);
      reflexivity.
  - destruct Hr as [H1 H2]. rewrite (IH1 H1), (IH2 H2). reflexivity.
  - rewrite (IH1 Hr). reflexivity.
Qed.

(** A string that matches is made of bytes of the classes. *)
Lemma MatchString_within (P : ascii -> bool) (r : Regexp) (s : string) :
  within P r -> MatchString r s = true -> allBytes P s = true.
Proof.
  revert r. induction s as [| c s IH]; intros r Hr Hm; cbn in *; [reflexivity |].
  destruct (P c) eqn:Hc; cbn.
  - apply (IH (deriv c r)); [apply within_deriv, Hr | exact Hm].
  - rewrite (void_MatchString _ _ (deriv_outside P c r Hr Hc)) in Hm. discriminate.
Qed.

(** Matching, piece by piece. *)
Lemma MatchString_Alt (r1 r2 : Regexp) (s : string) :
  MatchString (Alt r1 r2) s = MatchString r1 s || MatchString r2 s.
Proof.
  revert r1 r2. induction s as [| c s IH]; intros r1 r2; cbn; [reflexivity | apply IH].
Qed.

Lemma MatchString_Cat_nullable (r1 r2 : Regexp) (s : string) :
  nullable r1 = true -> MatchString r2 s = true -> MatchString (Cat r1 r2) s = true.
Proof.
  intros Hn Hm. destruct s as [| c s]; cbn in *.
  - rewrite Hn, Hm. reflexivity.
  - rewrite Hn. cbn. rewrite MatchString_Alt, Hm. apply orb_true_r.
Qed.

Lemma MatchString_Cat (r1 r2 : Regexp) (s1 s2 : string) :
  MatchString r1 s1 = true -> MatchString r2 s2 = true ->
  MatchString (Cat r1 r2) (s1 ++ s2) = true.
Proof.
  revert r1. induction s1 as [| c s1 IH]; intros r1 H1 H2.
  - apply MatchString_Cat_nullable; assumption.
  - change (MatchString (deriv c (Cat r1 r2)) (s1 ++ s2) = true).
    cbn [deriv]. cbn [MatchString] in H1.
    destruct (nullable r1).
    + rewrite MatchString_Alt, (IH _ H1 H2). reflexivity.
    + apply IH; assumption.
Qed.

Lemma MatchString_Star (r : Regexp) (s1 s2 : string) :
  MatchString r s1 = true -> MatchString (Star r) s2 = true ->
  MatchString (Star r) (s1 ++ s2) = true.
Proof.
  intros H1 H2. destruct s1 as [| c s1]; [exact H2 |].
  change (MatchString (Cat (deriv c r) (Star r)) (s1 ++ s2) = true).
  apply MatchString_Cat; assumption.
Qed.

(** The pieces of a string, one after the other. *)
Fixpoint pieces (l : list string) : string :=
  match l with
  | [] => EmptyString
  | s :: rest => s ++ pieces rest
  end.

Lemma MatchString_Star_pieces (r : Regexp) (l : list string) :
  Forall (fun s => MatchString r s = true) l -> MatchString (Star r) (pieces l) = true.
Proof.
  induction 1 as [| s l Hs _ IH]; [reflexivity |].
  cbn [pieces]. apply MatchString_Star; assumption.
Qed.

Lemma MatchString_Plus_pieces (r : Regexp) (s : string) (l : list string) :
  Forall (fun s => MatchString r s = true) (s :: l) ->
  MatchString (Plus r) (pieces (s :: l)) = true.
Proof.
  intros H. apply Forall_cons_iff in H as [Hs Hl].
  cbn [pieces]. apply MatchString_Cat; [exact Hs | apply MatchString_Star_pieces, Hl].
Qed.

Lemma allBytes_app (P : ascii -> bool) (s1 s2 : string) :
  allBytes P (s1 ++ s2) = allBytes P s1 && allBytes P s2.
Proof.
  induction s1 as [| c s1 IH]; [reflexivity |].
  change (allBytes P (String c s1 ++ s2)) with (P c && allBytes P (s1 ++ s2)).
  rewrite IH. apply andb_assoc.
Qed.

Lemma allBytes_weaken (P Q : ascii -> bool) (s : string) :
  (forall c, P c = true -> Q c = true) -> allBytes P s = true -> allBytes Q s = true.
Proof.
  intros HPQ. induction s as [| c s IH]; cbn; [reflexivity |].
  intros H. apply andb_true_iff in H as [Hc Hs].
  rewrite (HPQ c Hc), (IH Hs). reflexivity.
Qed.

End regexp.

(** * The CORS annotations *)
Module cors.
Import Stdlib.Strings.Ascii regexp.

Definition annotationCorsEnabled : string := "ingress.kubernetes.io/enable-cors".
Definition annotationCorsAllowOrigin : string := "ingress.kubernetes.io/cors-allow-origin".
Definition annotationCorsAllowMethods : string := "ingress.kubernetes.io/cors-allow-methods".
Definition annotationCorsAllowHeaders : string := "ingress.kubernetes.io/cors-allow-headers".
Definition annotationCorsAllowCredentials : string :=
  "ingress.kubernetes.io/cors-allow-credentials".

Definition defaultCorsMethods : string := "GET, PUT, POST, DELETE, PATCH, OPTIONS".
Definition defaultCorsHeaders : string :=
  "DNT,X-CustomHeader,Keep-Alive,User-Agent,X-Requested-With,If-Modified-Since,Cache-Control,Content-Type,Authorization".

(** The byte classes of the three patterns. *)
Definition between (lo hi : nat) (c : ascii) : bool :=
  (lo <=? nat_of_ascii c)%nat && (nat_of_ascii c <=? hi)%nat.

Definition letter (c : ascii) : bool := between 65 90 c || between 97 122 c.
Definition digit (c : ascii) : bool := between 48 57 c.

(** [\s]: tab, line feed, form feed, carriage return and space. *)
Definition space (c : ascii) : bool :=
  let n := nat_of_ascii c in
  Nat.eqb n 9 || Nat.eqb n 10 || Nat.eqb n 12 || Nat.eqb n 13 || Nat.eqb n 32.

(** The classes of the host and of a header name. *)
Definition hostByte (c : ascii) : bool :=
  letter c || digit c || Ascii.eqb c "-" || Ascii.eqb c ".".
Definition headerByte (c : ascii) : bool :=
  letter c || digit c || Ascii.eqb c "-" || Ascii.eqb c "_".

(** The pattern of origins: nothing; or [http], an optional [s], [://],
    any number of letters, digits, [-] and [.], and an optional port, a
    colon with one digit or more; or a single star. *)
Definition corsOriginRegex : Regexp :=
  Opt (Alt (Cat (Lit "http")
              (Cat (Opt (Chr "s"))
                 (Cat (Lit "://")
                    (Cat (Star (Class hostByte))
                       (Opt (Cat (Chr ":") (Plus (Class digit))))))))
           (Chr "*")).

(** The pattern of methods: once or more, one letter or more with an
    optional comma and an optional white space after them. *)
Definition corsMethodsRegex : Regexp :=
  Plus (Cat (Plus (Class letter)) (Cat (Opt (Chr ",")) (Opt (Class space)))).

(** The pattern of headers: once or more, one byte or more out of
    letters, digits, [-] and [_], with an optional comma and an optional
    white space after them. *)
Definition corsHeadersRegex : Regexp :=
  Plus (Cat (Plus (Class headerByte)) (Cat (Opt (Chr ",")) (Opt (Class space)))).

(** [CorsConfig] contains the Cors configuration to be used in the
    Ingress. *)
Record CorsConfig : Type := {
  CorsEnabled : bool;
  CorsAllowOrigin : string;
  CorsAllowMethods : string;
  CorsAllowHeaders : string;
  CorsAllowCredentials : bool
}.

(** [Equal] on two pointers, [None] for nil.  Two pointers that are the
    same point to the same fields, so the first test of the source is
    the test for two nils here. *)
Definition Equal (c1 c2 : option CorsConfig) : bool :=
  match c1, c2 with
  | None, None => true
  | None, Some _ | Some _, None => false
  | Some c1, Some c2 =>
      if negb (Bool.eqb (CorsAllowCredentials c1) (CorsAllowCredentials c2)) then false
      else if negb (String.eqb (CorsAllowHeaders c1) (CorsAllowHeaders c2)) then false
      else if negb (String.eqb (CorsAllowMethods c1) (CorsAllowMethods c2)) then false
      else if negb (String.eqb (CorsAllowOrigin c1) (CorsAllowOrigin c2)) then false
      else if negb (Bool.eqb (CorsEnabled c1) (CorsEnabled c2)) then false
      else true
  end.

Section Parse.
(** The annotations of an ingress are read with [parser.GetBoolAnnotation]
    and [parser.GetStringAnnotation], which are not part of this package. *)
Context {Ingress : Type}
        (GetBoolAnnotation : string -> Ingress -> bool * option error)
        (GetStringAnnotation : string -> Ingress -> string * option error).

Definition isSome {A : Type} (o : option A) : bool :=
  match o with Some _ => true | None => false end.

(** [Parse] parses the annotations contained in the ingress rule. *)
Definition Parse (ing : Ingress) : CorsConfig * option error :=
  let '(corsenabled, err) := GetBoolAnnotation annotationCorsEnabled ing in
  let corsenabled := if isSome err then false else corsenabled in
  let '(corsalloworigin, err) := GetStringAnnotation annotationCorsAllowOrigin ing in
  let corsalloworigin :=
    if isSome err || String.eqb corsalloworigin ""
       || negb (MatchString corsOriginRegex corsalloworigin)
    then "*" else corsalloworigin in
  let '(corsallowheaders, err) := GetStringAnnotation annotationCorsAllowHeaders ing in
  let corsallowheaders :=
    if isSome err || String.eqb corsallowheaders ""
       || negb (MatchString corsHeadersRegex corsallowheaders)
    then defaultCorsHeaders else corsallowheaders in
  let '(corsallowmethods, err) := GetStringAnnotation annotationCorsAllowMethods ing in
  let corsallowmethods :=
    if isSome err || String.eqb corsallowmethods ""
       || negb (MatchString corsMethodsRegex corsallowmethods)
    then defaultCorsMethods else corsallowmethods in
  let '(corsallowcredentials, err) := GetBoolAnnotation annotationCorsAllowCredentials ing in
  let corsallowcredentials := if isSome err then true else corsallowcredentials in
  ({| CorsEnabled := corsenabled;
      CorsAllowOrigin := corsalloworigin;
      CorsAllowHeaders := corsallowheaders;
      CorsAllowMethods := corsallowmethods;
      CorsAllowCredentials := corsallowcredentials |}, None).

(** The bytes an origin, a list of headers and a list of methods can be
    made of. *)
Definition originByte (c : ascii) : bool :=
  hostByte c || Ascii.eqb c ":" || Ascii.eqb c "/" || Ascii.eqb c "*".
Definition headersByte (c : ascii) : bool := headerByte c || Ascii.eqb c "," || space c.
Definition methodsByte (c : ascii) : bool := letter c || Ascii.eqb c "," || space c.

Ltac bytes := let c := fresh "c" in intros c; destruct c as [[] [] [] [] [] [] [] []]; vm_compute; congruence.

Lemma corsOriginRegex_bytes : within originByte corsOriginRegex.
Proof. cbn. repeat split; try exact I; bytes. Qed.

Lemma corsHeadersRegex_bytes : within headersByte corsHeadersRegex.
Proof. cbn. repeat split; try exact I; bytes. Qed.

Lemma corsMethodsRegex_bytes : within methodsByte corsMethodsRegex.
Proof. cbn. repeat split; try exact I; bytes. Qed.

(** The defaults match their patterns, entry by entry. *)
Lemma defaultCorsHeaders_match : MatchString corsHeadersRegex defaultCorsHeaders = true.
Proof.
  change defaultCorsHeaders with
    (pieces ["DNT,"; "X-CustomHeader,"; "Keep-Alive,"; "User-Agent,"; "X-Requested-With,";
             "If-Modified-Since,"; "Cache-Control,"; "Content-Type,"; "Authorization"]).
  apply MatchString_Plus_pieces. repeat constructor; vm_compute; reflexivity.
Qed.

Lemma defaultCorsMethods_match : MatchString corsMethodsRegex defaultCorsMethods = true.
Proof.
  change defaultCorsMethods with
    (pieces ["GET, "; "PUT, "; "POST, "; "DELETE, "; "PATCH, "; "OPTIONS"]).
  apply MatchString_Plus_pieces. repeat constructor; vm_compute; reflexivity.
Qed.

(** The patterns at work. *)
Lemma corsOriginRegex_examples :
  map (MatchString corsOriginRegex)
    [""; "*"; "http://example.com"; "https://sub.example-1.com:8443";
     "https://example.com/path"; "ftp://example.com"; "https://example.com:";
     "$upstream_addr"; "**"] =
  [true; true; true; true; false; false; false; false; false].
Proof. vm_compute. reflexivity. Qed.

Lemma corsMethodsRegex_examples :
  map (MatchString corsMethodsRegex) [""; "GET"; "GET, PUT"; "GET,PUT,"; "GET;PUT"; "GET,, PUT"] =
  [false; true; true; true; false; false].
Proof. vm_compute. reflexivity. Qed.

(** What [Parse] keeps of an annotation: its value when it was read
    without error, is not empty and matches; the default otherwise. *)
Lemma sanitised (P : ascii -> bool) (r : Regexp) (dflt v : string) (err : option error) :
  within P r -> dflt <> "" -> MatchString r dflt = true ->
  let x := if isSome err || String.eqb v "" || negb (MatchString r v) then dflt else v in
  x <> "" /\ MatchString r x = true /\ allBytes P x = true.
Proof.
  intros Hr Hne Hd. cbv zeta.
  destruct (isSome err); cbn [orb];
    [split; [exact Hne | split; [exact Hd | exact (MatchString_within P r _ Hr Hd)]] |].
  destruct (String.eqb_spec v ""); cbn [orb];
    [split; [exact Hne | split; [exact Hd | exact (MatchString_within P r _ Hr Hd)]] |].
  destruct (MatchString r v) eqn:Hv; cbn [negb orb];
    [| split; [exact Hne | split; [exact Hd | exact (MatchString_within P r _ Hr Hd)]]].
  split; [assumption | split; [exact Hv | exact (MatchString_within P r _ Hr Hv)]].
Qed.

(** X15.  Whatever the annotations of the ingress are, [Parse] returns no
    error, and the origin, the headers and the methods of its result are
    not empty, match their patterns and are made of the bytes of those
    patterns only: letters, digits, dash, dot, colon, slash and star for
    the origin; letters, digits, dash, underscore, comma and white space
    for the headers; letters, commas and white space for the methods.  No
    dollar sign, so no variable of the proxy, can be passed through
    them. *)
Theorem Parse_sanitises (ing : Ingress) :
  let c := fst (Parse ing) in
  snd (Parse ing) = None /\
  (CorsAllowOrigin c <> "" /\ MatchString corsOriginRegex (CorsAllowOrigin c) = true /\
   allBytes originByte (CorsAllowOrigin c) = true) /\
  (CorsAllowHeaders c <> "" /\ MatchString corsHeadersRegex (CorsAllowHeaders c) = true /\
   allBytes headersByte (CorsAllowHeaders c) = true) /\
  (CorsAllowMethods c <> "" /\ MatchString corsMethodsRegex (CorsAllowMethods c) = true /\
   allBytes methodsByte (CorsAllowMethods c) = true) /\
  allBytes (fun b => negb (Ascii.eqb b "$"))
    (CorsAllowOrigin c ++ CorsAllowHeaders c ++ CorsAllowMethods c) = true.
Proof.
  unfold Parse.
  destruct (GetBoolAnnotation annotationCorsEnabled ing) as [enabled e1].
  destruct (GetStringAnnotation annotationCorsAllowOrigin ing) as [origin e2].
  destruct (GetStringAnnotation annotationCorsAllowHeaders ing) as [headers e3].
  destruct (GetStringAnnotation annotationCorsAllowMethods ing) as [methods e4].
  destruct (GetBoolAnnotation annotationCorsAllowCredentials ing) as [credentials e5].
  cbn [fst snd CorsAllowOrigin CorsAllowHeaders CorsAllowMethods].
  pose proof (sanitised originByte corsOriginRegex "*" origin e2
                corsOriginRegex_bytes ltac:(discriminate) eq_refl) as Ho.
  pose proof (sanitised headersByte corsHeadersRegex defaultCorsHeaders headers e3
                corsHeadersRegex_bytes ltac:(discriminate) defaultCorsHeaders_match) as Hh.
  pose proof (sanitised methodsByte corsMethodsRegex defaultCorsMethods methods e4
                corsMethodsRegex_bytes ltac:(discriminate) defaultCorsMethods_match) as Hm.
  cbv zeta in Ho, Hh, Hm.
  split; [reflexivity |]. split; [exact Ho |]. split; [exact Hh |]. split; [exact Hm |].
  rewrite !allBytes_app.
  rewrite (allBytes_weaken originByte (fun b => negb (Ascii.eqb b "$")) _ ltac:(bytes) (proj2 (proj2 Ho))).
  rewrite (allBytes_weaken headersByte (fun b => negb (Ascii.eqb b "$")) _ ltac:(bytes) (proj2 (proj2 Hh))).
  rewrite (allBytes_weaken methodsByte (fun b => negb (Ascii.eqb b "$")) _ ltac:(bytes) (proj2 (proj2 Hm))).
  reflexivity.
Qed.
End Parse.

(** X14.  [Equal] is true exactly when both pointers are nil or both point
    to configurations with the same five fields. *)
Theorem Equal_iff (c1 c2 : option CorsConfig) : Equal c1 c2 = true <-> c1 = c2.
Proof.
  destruct c1 as [[e1 o1 m1 h1 k1] |], c2 as [[e2 o2 m2 h2 k2] |]; cbn;
    try (split; [discriminate | discriminate]); [| split; reflexivity].
  destruct (Bool.eqb_spec k1 k2); cbn; [| split; [discriminate | congruence]].
  destruct (String.eqb_spec h1 h2); cbn; [| split; [discriminate | congruence]].
  destruct (String.eqb_spec m1 m2); cbn; [| split; [discriminate | congruence]].
  destruct (String.eqb_spec o1 o2); cbn; [| split; [discriminate | congruence]].
  destruct (Bool.eqb_spec e1 e2); cbn; [| split; [discriminate | congruence]].
  subst. split; reflexivity.
Qed.

End cors.

(** * The balancing mode updater

    The helpers of the script that moves the backend services of a
    cluster from one balancing mode to the other. *)
Module updater.
Import Stdlib.Strings.Ascii.

Definition instanceGroupTemp : string := "k8s-ig--migrate".
Definition balancingModeRATE : string := "RATE".
Definition balancingModeUTIL : string := "UTILIZATION".

Definition balancingModeInverse (m : string) : string :=
  if String.eqb m balancingModeRATE then balancingModeUTIL
  else if String.eqb m balancingModeUTIL then balancingModeRATE
  else "".

(** [strings.Split(s, "/")]: the pieces between the slashes, one more
    than there are slashes. *)
Fixpoint Split (s : string) : list string :=
  match s with
  | EmptyString => [EmptyString]
  | String c rest =>
      if Ascii.eqb c "/" then EmptyString :: Split rest
      else
        match Split rest with
        | piece :: pieces => String c piece :: pieces
        | [] => [String c EmptyString]
        end
  end.

(** A call returns a string or panics with an index out of range. *)
Inductive Result : Type :=
| Value (s : string)
| IndexOutOfRange.

(** The loop of [getResourceName] from index [i] on; [fuel] bounds the
    number of rounds.  The guard [i+1 <= len(s)] is the one of the
    source. *)
Fixpoint getResourceNameFrom (s : list string) (resourceType : string) (fuel i : nat)
    : Result :=
  match fuel with
  | O => Value ""
  | S fuel =>
      if (i <? length s)%nat then
        match s !! i with
        | None => IndexOutOfRange
        | Some piece =>
            if String.eqb piece resourceType then
              if (i + 1 <=? length s)%nat then
                match s !! (i + 1)%nat with
                | Some next => Value next
                | None => IndexOutOfRange
                end
              else getResourceNameFrom s resourceType fuel (i + 1)
            else getResourceNameFrom s resourceType fuel (i + 1)
        end
      else Value ""
  end.

Definition getResourceName (link resourceType : string) : Result :=
  let s := Split link in
  getResourceNameFrom s resourceType (length s) 0.

Section Links.
(** The global [projectID]. *)
Context (projectID : string).

Definition createInstanceGroupLink (zone igName : string) : string :=
  "https://www.googleapis.com/compute/v1/projects/" +:+ projectID
  +:+ "/zones/" +:+ zone +:+ "/instanceGroups/" +:+ igName.

Definition createRegionLink (region : string) : string :=
  "https://www.googleapis.com/compute/v1/projects/nicksardo-playground/regions/" +:+ region.
End Links.

(** No slash in the string. *)
Fixpoint slashFree (s : string) : bool :=
  match s with
  | EmptyString => true
  | String c rest => negb (Ascii.eqb c "/") && slashFree rest
  end.

Lemma Split_nonempty (s : string) : Split s <> [].
Proof.
  induction s as [| c s IH]; cbn; [discriminate |].
  destruct (Ascii.eqb c "/"); [discriminate |].
  destruct (Split s); discriminate.
Qed.

Lemma Split_slashFree (s : string) : slashFree s = true -> Split s = [s].
Proof.
  induction s as [| c s IH]; cbn; [reflexivity |].
  destruct (Ascii.eqb c "/"); cbn; [discriminate |].
  intros H. rewrite (IH H). reflexivity.
Qed.

(** Splitting two strings joined by a slash. *)
Lemma Split_join (a b : string) : Split (a +:+ String "/" b) = Split a ++ Split b.
Proof.
  induction a as [| c a IH]; [reflexivity |].
  change (String c a +:+ String "/" b) with (String c (a +:+ String "/" b)).
  cbn [Split]. rewrite IH.
  destruct (Ascii.eqb c "/"); [reflexivity |].
  pose proof (Split_nonempty a) as Hne.
  destruct (Split a) as [| piece pieces]; [contradiction | reflexivity].
Qed.

(** The loop looks at the pieces from [i] on, in order. *)
Lemma getResourceNameFrom_skip (pre rest : list string) (resourceType : string)
    (fuel : nat) :
  ~ In resourceType pre -> (length rest <= fuel)%nat ->
  forall done : list string,
    getResourceNameFrom (done ++ pre ++ rest) resourceType (length pre + fuel) (length done) =
    getResourceNameFrom (done ++ pre ++ rest) resourceType fuel (length done + length pre).
Proof.
  induction pre as [| p pre IH]; intros Hnot Hfuel done.
  - cbn. rewrite Nat.add_0_r. reflexivity.
  - cbn [length Nat.add getResourceNameFrom].
    assert (Hlt : (length done <? length (done ++ (p :: pre) ++ rest))%nat = true).
    { apply Nat.ltb_lt. rewrite !length_app. cbn. lia. }
    rewrite Hlt.
    assert (Hat : (done ++ (p :: pre) ++ rest) !! length done = Some p).
    { rewrite lookup_app_r by lia. rewrite Nat.sub_diag. reflexivity. }
    rewrite Hat.
    destruct (String.eqb_spec p resourceType) as [-> | Hne];
      [exfalso; apply Hnot; left; reflexivity |].
    replace (done ++ (p :: pre) ++ rest) with ((done ++ [p]) ++ pre ++ rest)
      by (rewrite <- app_assoc; reflexivity).
    replace (length done + 1)%nat with (length (done ++ [p]))
      by (rewrite length_app; reflexivity).
    rewrite IH by (try lia; intros Hin; apply Hnot; right; exact Hin).
    rewrite length_app. cbn [length]. f_equal. lia.
Qed.

(** X16.  [getResourceName] looks for the first piece of the link, split
    at the slashes, that equals the resource type.  Without such a piece
    it returns the empty string; when another piece follows, it returns
    that piece; and when the piece is the last one of the link, the call
    panics with an index out of range, since the guard before the access
    holds for every index of the loop. *)
Theorem getResourceName_first_match (link resourceType : string) (pre : list string) :
  ~ In resourceType pre ->
  (Split link = pre -> getResourceName link resourceType = Value "") /\
  (forall next rest,
     Split link = pre ++ resourceType :: next :: rest ->
     getResourceName link resourceType = Value next) /\
  (Split link = pre ++ [resourceType] ->
   getResourceName link resourceType = IndexOutOfRange).
Proof.
  intros Hnot. unfold getResourceName. split; [| split].
  - intros ->.
    pose proof (getResourceNameFrom_skip pre [] resourceType 0 Hnot (Nat.le_refl _) []) as H.
    rewrite app_nil_r, Nat.add_0_r in H. cbn [app length] in H. rewrite H. reflexivity.
  - intros next rest ->.
    pose proof (getResourceNameFrom_skip pre (resourceType :: next :: rest) resourceType
                  (length (resourceType :: next :: rest)) Hnot (Nat.le_refl _) []) as H.
    change (length (@nil string)) with O in H. cbn [app] in H.
    rewrite length_app. rewrite H. cbn [length Nat.add getResourceNameFrom].
    assert (Hlt : (length pre <? length (pre ++ resourceType :: next :: rest))%nat = true).
    { apply Nat.ltb_lt. rewrite length_app. cbn. lia. }
    rewrite Hlt.
    rewrite lookup_app_r, Nat.sub_diag by lia. cbn [lookup list_lookup].
    rewrite String.eqb_refl.
    assert (Hle : (length pre + 1 <=? length (pre ++ resourceType :: next :: rest))%nat = true).
    { apply Nat.leb_le. rewrite length_app. cbn. lia. }
    rewrite Hle.
    rewrite lookup_app_r by lia.
    replace (length pre + 1 - length pre)%nat with 1%nat by lia. reflexivity.
  - intros ->.
    pose proof (getResourceNameFrom_skip pre [resourceType] resourceType 1 Hnot
                  (Nat.le_refl _) []) as H.
    change (length (@nil string)) with O in H. cbn [app] in H.
    rewrite length_app. change (length [resourceType]) with 1%nat. rewrite H.
    cbn [length Nat.add getResourceNameFrom].
    assert (Hlt : (length pre <? length (pre ++ [resourceType]))%nat = true).
    { apply Nat.ltb_lt. rewrite length_app. cbn. lia. }
    rewrite Hlt.
    rewrite lookup_app_r, Nat.sub_diag by lia. cbn [lookup list_lookup].
    rewrite String.eqb_refl.
    assert (Hle : (length pre + 1 <=? length (pre ++ [resourceType]))%nat = true).
    { apply Nat.leb_le. rewrite length_app. cbn. lia. }
    rewrite Hle.
    rewrite lookup_app_r by lia.
    replace (length pre + 1 - length pre)%nat with 1%nat by lia. reflexivity.
Qed.

(** X17.  The zone and the instance group can be read back from the link
    that [createInstanceGroupLink] builds, when neither holds a slash, no
    piece of the project id is the word [zones] or [instanceGroups], and
    the zone is not the word [instanceGroups]. *)
Theorem getResourceName_createInstanceGroupLink (projectID zone igName : string) :
  ~ In "zones" (Split projectID) -> ~ In "instanceGroups" (Split projectID) ->
  slashFree zone = true -> slashFree igName = true -> zone <> "instanceGroups" ->
  getResourceName (createInstanceGroupLink projectID zone igName) "zones" = Value zone /\
  getResourceName (createInstanceGroupLink projectID zone igName) "instanceGroups" =
  Value igName.
Proof.
  intros Hz Hg Hzone Hig Hne.
  assert (Hsplit : Split (createInstanceGroupLink projectID zone igName) =
                   (["https:"; ""; "www.googleapis.com"; "compute"; "v1"; "projects"]
                    ++ Split projectID) ++ "zones" :: zone :: "instanceGroups" :: [igName]).
  { unfold createInstanceGroupLink.
    change ("https://www.googleapis.com/compute/v1/projects/" +:+ projectID +:+ "/zones/"
            +:+ zone +:+ "/instanceGroups/" +:+ igName)
      with ("https://www.googleapis.com/compute/v1/projects"
            +:+ String "/" (projectID +:+ String "/" ("zones" +:+ String "/"
                  (zone +:+ String "/" ("instanceGroups" +:+ String "/" igName))))).
    rewrite !Split_join.
    rewrite (Split_slashFree zone Hzone), (Split_slashFree igName Hig).
    rewrite <- app_assoc. reflexivity. }
  split.
  - eapply (getResourceName_first_match _ "zones"); [| exact Hsplit].
    intros Hin. apply in_app_or in Hin as [Hin | Hin]; [| contradiction].
    cbn in Hin. repeat destruct Hin as [Hin | Hin]; try discriminate Hin. exact Hin.
  - eapply (getResourceName_first_match _ "instanceGroups"
              ((["https:"; ""; "www.googleapis.com"; "compute"; "v1"; "projects"]
                ++ Split projectID) ++ ["zones"; zone]));
      [| rewrite Hsplit, <- !app_assoc; reflexivity].
    intros Hin. apply in_app_or in Hin as [Hin | Hin].
    + apply in_app_or in Hin as [Hin | Hin]; [| contradiction].
      cbn in Hin. repeat destruct Hin as [Hin | Hin]; try discriminate Hin. exact Hin.
    + cbn in Hin. destruct Hin as [Hin | [Hin | []]]; [discriminate Hin | congruence].
Qed.

(** X18.  [balancingModeInverse] swaps the two balancing modes and maps
    everything else to the empty string: the inverse of a mode is never
    the mode itself, and taking the inverse twice gives the mode back
    exactly for the two modes and for the empty string. *)
Theorem balancingModeInverse_involution (m : string) :
  (m = balancingModeRATE \/ m = balancingModeUTIL ->
   balancingModeInverse m <> m /\
   (balancingModeInverse m = balancingModeRATE \/
    balancingModeInverse m = balancingModeUTIL)) /\
  (balancingModeInverse (balancingModeInverse m) = m <->
   m = balancingModeRATE \/ m = balancingModeUTIL \/ m = "").
Proof.
  unfold balancingModeInverse.
  destruct (String.eqb_spec m balancingModeRATE) as [-> | Hr].
  - cbn. split; [intros _; split; [discriminate | auto] | split; auto].
  - destruct (String.eqb_spec m balancingModeUTIL) as [-> | Hu].
    + cbn. split; [intros _; split; [discriminate | auto] | split; auto].
    + cbn. split; [intros [H | H]; contradiction |].
      split; [intros <-; auto | intros [H | [H | H]]; [contradiction | contradiction | auto]].
Qed.

End updater.

(** * More runs *)

(** The temporary file of the diff cannot be created. *)
Definition tempFailing : Env (Backend := string) (Server := string) (L4Service := string) :=
  fun h c =>
    match c as c0 return result c0 with
    | CreateTemp _ _ => inr "too many open files"
    | c0 => healthy h c0
    end.

(** A newer snapshot that carries DH parameters. *)
Definition withDHParams : Snapshot :=
  {| config.DefaultSSLCertificate := None; config.BacklogSize := 0;
     config.Backends := ["web"]; config.Servers := ["example.com"];
     config.TCPBackends := []; config.UDPBackends := [];
     config.Cfg := {| config.Checksum := "v1"; config.SSLDHParam := "";
                      config.Resolver := []; config.DisableIpv6DNS := false |};
     config.GeneratedTime := 7;
     config.DHParamFile := "/etc/ingress-controller/ssl/dhparam.pem";
     config.DHParamContent := Some "-----BEGIN DH PARAMETERS-----" |}.

(** The update of the live artifact on its own. *)
Definition update (n : NGINXConfigurer) (cfg : Snapshot)
    : Prog (Snapshot * option error) :=
  updateConfiguration livePath n cfg.

Lemma update_writes_run :
  In (livePath, "events {} http {}", None)
     (observe fileWrite
        (emitted (atRest (Some applied))
           (snd (run healthy (update orchestrator reloading) (atRest (Some applied)))))) /\
  In ("events {} http {}", None)
     (observe dryRun
        (emitted (atRest (Some applied))
           (snd (run healthy (update orchestrator reloading) (atRest (Some applied)))))).
Proof.
  assert (Hin : In (livePath, "events {} http {}", None)
                   (observe fileWrite
                      (emitted (atRest (Some applied))
                         (snd (run healthy (update orchestrator reloading)
                                 (atRest (Some applied)))))))
    by (vm_compute; auto).
  split; [exact Hin |].
  exact (proj1 (update_writes_only_validated_content livePath healthy orchestrator reloading
                  (atRest (Some applied)) livePath "events {} http {}" None Hin)).
Defined.


Lemma temporary_file_failure_run :
  snd (fst (run tempFailing (update orchestrator reloading) (atRest (Some applied)))) =
  Some "too many open files" /\
  files (snd (run tempFailing (update orchestrator reloading) (atRest (Some applied)))) =
  files (atRest (Some applied)).
Proof.
  destruct (update_gives_up_without_temporary_file livePath tempFailing orchestrator reloading
              (atRest (Some applied)) "too many open files")
    as (Herr & _ & _ & Hfiles & _).
  - vm_compute. auto.
  - split; [exact Herr | exact Hfiles].
Defined.

Lemma rendered_snapshot_run :
  fst (fst (run healthy (update orchestrator reloading) (atRest (Some applied)))) =
  assignRuntimeFields orchestrator 511 true reloading.
Proof.
  refine (proj1 (update_renders_with_runtime_fields livePath healthy orchestrator reloading
                   (atRest (Some applied))
                   (assignRuntimeFields orchestrator 511 true reloading)
                   (inl "events {} http {}") _)).
  vm_compute. auto.
Defined.

Lemma three_snapshots_run :
  exists new,
    templateConfig
      (syncAll sameServerCount backendCount sameSize noneRemoved noneRemoved noneRemoved
         livePath healthy orchestrator [reloading; outdated; withDHParams]
         (atRest (Some applied))) = Some new /\
    config.GeneratedTime applied <= config.GeneratedTime new /\
    (new = applied \/
     exists cfg, In cfg [reloading; outdated; withDHParams] /\
                 sameSnapshot orchestrator cfg new /\
                 config.GeneratedTime applied < config.GeneratedTime new).
Proof.
  apply (last_applied_only_moves_forward sameServerCount backendCount sameSize
           noneRemoved noneRemoved noneRemoved livePath healthy orchestrator
           [reloading; outdated; withDHParams] applied (atRest (Some applied))).
  reflexivity.
Defined.

Lemma refused_pushes_run :
  templateConfig (snd (run pushFailing (reconcile orchestrator rebalanced)
                         (atRest (Some applied)))) =
  templateConfig (atRest (Some applied)).
Proof.
  apply (snapshot_recorded_only_after_accepted_push sameServerCount backendCount sameSize
           noneRemoved noneRemoved noneRemoved livePath pushFailing orchestrator rebalanced
           (atRest (Some applied))).
  vm_compute. discriminate.
Defined.

Lemma resubmitted_run :
  emitted (snd (run healthy (reconcile orchestrator rebalanced) (atRest (Some applied))))
    (snd (run healthy (reconcile orchestrator rebalanced)
            (snd (run healthy (reconcile orchestrator rebalanced) (atRest (Some applied)))))) =
  rejectedCall rebalanced /\
  fst (run healthy (reconcile orchestrator rebalanced)
         (snd (run healthy (reconcile orchestrator rebalanced) (atRest (Some applied))))) =
  Returned.
Proof.
  destruct (resubmitted_snapshot_is_stale sameServerCount backendCount sameSize
              noneRemoved noneRemoved noneRemoved livePath healthy orchestrator
              rebalanced rebalanced (atRest (Some applied)))
    as (Hret & Hevs & _).
  - vm_compute. reflexivity.
  - cbn. lia.
  - split; [exact Hevs | exact Hret].
Defined.

Lemma dh_parameters_run :
  observe dhParamCall
    (emitted (atRest (Some applied))
       (snd (run healthy (reconcile orchestrator withDHParams) (atRest (Some applied))))) =
  [("/etc/ingress-controller/ssl/dhparam.pem", "-----BEGIN DH PARAMETERS-----")].
Proof.
  destruct (dh_parameters_stored_when_present sameServerCount backendCount sameSize
              noneRemoved noneRemoved noneRemoved livePath healthy orchestrator
              withDHParams applied (atRest (Some applied)) eq_refl)
    as (Hstored & _).
  - cbn. lia.
  - unfold reconcile. rewrite Hstored; [reflexivity | vm_compute; reflexivity].
Defined.

Lemma zone_of_link_run :
  updater.getResourceName "projects/p/zones/us-central1-a" "zones" =
  updater.Value "us-central1-a" /\
  updater.getResourceName "projects/p/zones" "zones" = updater.IndexOutOfRange.
Proof.
  assert (Hnot : ~ In "zones" ["projects"; "p"])
    by (intros [H | [H | []]]; discriminate H).
  split.
  - exact (proj1 (proj2 (updater.getResourceName_first_match
                           "projects/p/zones/us-central1-a" "zones" ["projects"; "p"] Hnot))
             "us-central1-a" [] eq_refl).
  - exact (proj2 (proj2 (updater.getResourceName_first_match
                           "projects/p/zones" "zones" ["projects"; "p"] Hnot)) eq_refl).
Defined.

Lemma instance_group_link_run :
  updater.getResourceName
    (updater.createInstanceGroupLink "my-project" "us-central1-a" "k8s-ig--0123") "zones" =
  updater.Value "us-central1-a" /\
  updater.getResourceName
    (updater.createInstanceGroupLink "my-project" "us-central1-a" "k8s-ig--0123")
    "instanceGroups" = updater.Value "k8s-ig--0123".
Proof.
  apply (updater.getResourceName_createInstanceGroupLink
           "my-project" "us-central1-a" "k8s-ig--0123").
  - intros [H | []]. discriminate H.
  - intros [H | []]. discriminate H.
  - reflexivity.
  - reflexivity.
  - discriminate.
Defined.
